(** * Advertisement service (app.py): a shallow embedding and its properties

    The service keeps one table of advertisements in SQLite and exposes
    create / get / partial update / delete / search over HTTP.  The
    handlers of app.py are embedded as functions in a small state and
    exception monad over the table; the parts of the behaviour that
    app.py delegates are modelled by what the calls it makes do:

    - [session.get(Advertisement, k)] is a primary-key lookup; the key
      is bound as an SQLite integer, which has 64 bits: a larger one
      raises OverflowError;
    - a required field of a [table=True] model ([title: str],
      [price: float], [author: str]) is a NOT NULL column,
      [description: Optional[str]] is a nullable one;
    - [id: Optional[int] = Field(default=None, primary_key=True)] is an
      INTEGER PRIMARY KEY: a row inserted without an id gets the largest
      id in the table plus one (1 in an empty table);
    - a float is bound as an SQLite REAL: NaN is bound as NULL, and a
      REAL column keeps -0.0 as 0.0;
    - an UPDATE writes the columns whose attributes were set;
    - [column.contains(x)] is [column LIKE '%' || x || '%'], and the
      engine is SQLite (line 30), whose LIKE folds the case of ASCII
      letters, reads [%] and [_] in the pattern as wildcards, reads
      both texts up to their first NUL character, and fails on a
      pattern of more than 50000 bytes;
    - [==], [>=] and [<=] on columns are SQL comparisons, on a TEXT
      column with the default BINARY collation and on a REAL column;
    - a select without ORDER BY scans the table by ascending id;
    - a response is encoded as JSON, which has no infinite number and
      no NaN: a record with such a price cannot be encoded (500).

    Texts are held as SQLite holds them, as the bytes of their UTF-8
    encoding; a character is a byte below 192 or a byte from 192 with
    the continuation bytes (128..191) that follow it.  A Python [str]
    without a UTF-8 encoding (one with a lone surrogate) is not a text
    of the embedding. *)

From Stdlib Require Import Ascii String Floats.
From stdpp Require Import gmap strings list fin_maps sorting.

Local Open Scope Z_scope.

(** ** Python values *)

(** [datetime] values: microseconds since the epoch. *)
Definition datetime := Z.

(** The values an attribute of an ORM instance or an entry of a pydantic
    [dict()] holds at run time. *)
Inductive pyval :=
| PNone
| PStr (s : string)
| PFloat (x : float)
| PInt (n : Z)
| PDatetime (t : datetime).

Definition of_opt_str (o : option string) : pyval :=
  match o with Some s => PStr s | None => PNone end.

Definition of_opt_float (o : option float) : pyval :=
  match o with Some x => PFloat x | None => PNone end.

(** Python truthiness of a [str]: only [""] is falsy. *)
Definition truthy (s : string) : bool := negb (String.eqb s "").

(** [math.isnan] and [math.isfinite] *)
Definition isnan (x : float) : bool :=
  match PrimFloat.classify x with
  | NaN => true
  | _ => false
  end.

Definition isfinite (x : float) : bool :=
  match PrimFloat.classify x with
  | NaN | PInf | NInf => false
  | _ => true
  end.

(** ** SQLite: values and LIKE *)

Module Sqlite.

(** An SQLite INTEGER has 64 bits. *)
Definition in_int64 (k : Z) : bool := (- 2 ^ 63 <=? k) && (k <=? 2 ^ 63 - 1).

(** The REAL a column keeps for a float other than NaN: the float
    itself, but 0.0 for -0.0 (a REAL without fraction is written as an
    integer). *)
Definition real (x : float) : float :=
  match PrimFloat.classify x with
  | NZero => 0%float
  | _ => x
  end.

(** [sqlite3Tolower]: only the 26 ASCII capitals change. *)
Definition tolower (c : ascii) : ascii :=
  let n := nat_of_ascii c in
  if ((65 <=? n)%nat && (n <=? 90)%nat)%bool then ascii_of_nat (n + 32) else c.

(** Comparison of a pattern character that is not a wildcard with a
    character of the subject: equal, or both ASCII and equal up to
    case.  On UTF-8 text two characters are equal when their bytes are,
    so the comparison goes byte by byte. *)
Definition char_match (c c2 : ascii) : bool :=
  Ascii.eqb c c2
  || (Ascii.eqb (tolower c) (tolower c2)
      && (nat_of_ascii c <? 128)%nat && (nat_of_ascii c2 <? 128)%nat).

Definition matchAll : ascii := "%"%char.
Definition matchOne : ascii := "_"%char.
Definition NUL : ascii := "000"%char.

(** The first byte of a character of several bytes, and the bytes that
    continue one ([sqlite3Utf8Read]). *)
Definition is_lead (c : ascii) : bool := (192 <=? nat_of_ascii c)%nat.

Definition is_cont (c : ascii) : bool :=
  (128 <=? nat_of_ascii c)%nat && (nat_of_ascii c <? 192)%nat.

(** [s] without the continuation bytes it begins with. *)
Fixpoint skip_cont (s : string) : string :=
  match s with
  | EmptyString => EmptyString
  | String c s' => if is_cont c then skip_cont s' else s
  end.

(** What [%] does: [k] is tried on [s] and on what is left of [s] after
    one, two, ... of its characters.  [inside] says that the bytes
    before were a character that continuation bytes still continue. *)
Fixpoint skip_chars (k : string → bool) (s : string) (inside : bool) : bool :=
  match s with
  | EmptyString => k EmptyString
  | String c s' =>
      if inside && is_cont c then skip_chars k s' true
      else k s || skip_chars k s' (is_lead c)
  end.

(** [patternCompare pat s]: the text [s] matches the pattern [pat];
    neither holds a NUL. *)
Fixpoint patternCompare (pat : string) : string → bool :=
  match pat with
  | EmptyString => fun s => match s with EmptyString => true | _ => false end
  | String c pat' =>
      if Ascii.eqb c matchAll then
        fun s => skip_chars (patternCompare pat') s false
      else if Ascii.eqb c matchOne then
        fun s =>
          match s with
          | EmptyString => false
          | String c2 s' =>
              patternCompare pat' (if is_lead c2 then skip_cont s' else s')
          end
      else
        fun s =>
          match s with
          | EmptyString => false
          | String c2 s' => char_match c c2 && patternCompare pat' s'
          end
  end.

(** A text up to its first NUL, as a C string is read. *)
Fixpoint until_nul (s : string) : string :=
  match s with
  | EmptyString => EmptyString
  | String c s' => if Ascii.eqb c NUL then EmptyString else String c (until_nul s')
  end.

(** SQLITE_MAX_LIKE_PATTERN_LENGTH: a pattern of more bytes, counted
    with what follows a NUL, is refused. *)
Definition max_like_pattern_length : Z := 50000.

Definition too_complex (pat : string) : bool :=
  max_like_pattern_length <? Z.of_nat (String.length pat).

(** [like pat s]: [s LIKE pat], without an ESCAPE clause; [None] when
    the function fails with "LIKE or GLOB pattern too complex". *)
Definition like (pat s : string) : option bool :=
  if too_complex pat then None
  else Some (patternCompare (until_nul pat) (until_nul s)).

(** [column.contains(x)], as SQLAlchemy renders it:
    [column LIKE '%' || x || '%']. *)
Definition contains_pattern (x : string) : string :=
  String matchAll (x +:+ String matchAll EmptyString).

Definition contains (column x : string) : option bool :=
  like (contains_pattern x) column.




(** A text with its ASCII capitals lowered. *)
Fixpoint lower (s : string) : string :=
  match s with
  | EmptyString => EmptyString
  | String c s' => String (tolower c) (lower s')
  end.

End Sqlite.

(** ** The models (lines 6-27) *)

(** [AdvertisementCreate] (= [AdvertisementBase]): a validated request
    body of POST. *)
Module AdvertisementCreate.
Record t := mk {
  title : string;
  description : option string;
  price : float;
  author : string }.
End AdvertisementCreate.

(** [AdvertisementRead]: the response model. *)
Module AdvertisementRead.
Record t := mk {
  title : string;
  description : option string;
  price : float;
  author : string;
  id : Z;
  created_at : datetime }.
End AdvertisementRead.

(** [AdvertisementUpdate]: a validated request body of PATCH.  Every
    field is [Optional] with default [None]; [fields_set] is pydantic's
    record of the names the body supplied. *)
Module AdvertisementUpdate.
Record t := mk {
  title : option string;
  description : option string;
  price : option float;
  author : option string;
  fields_set : list string }.

Definition fields (u : t) : list (string * pyval) :=
  [ ("title", of_opt_str (title u));
    ("description", of_opt_str (description u));
    ("price", of_opt_float (price u));
    ("author", of_opt_str (author u)) ].

(** [u.dict(exclude_unset=True)], as the list of its items. *)
Definition dict_exclude_unset (u : t) : list (string * pyval) :=
  filter (λ kv, kv.1 ∈ fields_set u) (fields u).
End AdvertisementUpdate.

(** [Advertisement], the [table=True] model: an instance is a Python
    object whose attributes are assigned without validation.  [sa_key]
    is the primary key under which the session loaded the instance
    ([None] for an instance that is not yet in the table), and
    [sa_modified] the names of the attributes set since it was loaded. *)
Module Advertisement.
Record t := mk {
  title : pyval;
  description : pyval;
  price : pyval;
  author : pyval;
  id : pyval;
  created_at : pyval;
  sa_key : option Z;
  sa_modified : list string }.

(** [Advertisement.from_orm(ad)]: the four fields of [ad], [id] left at
    its default [None], [created_at] from [datetime.utcnow]. *)
Definition from_orm (utcnow : datetime) (ad : AdvertisementCreate.t) : t :=
  {| title := PStr (AdvertisementCreate.title ad);
     description := of_opt_str (AdvertisementCreate.description ad);
     price := PFloat (AdvertisementCreate.price ad);
     author := PStr (AdvertisementCreate.author ad);
     id := PNone;
     created_at := PDatetime utcnow;
     sa_key := None;
     sa_modified := [] |}.

(** [setattr(ad, k, v)] on the attributes of the model.  The names that
    reach it are field names of [AdvertisementUpdate], which are among
    them; the last branch is never taken. *)
Definition setattr (ad : t) (k : string) (v : pyval) : t :=
  let m := k :: sa_modified ad in
  if String.eqb k "title" then
    mk v (description ad) (price ad) (author ad) (id ad) (created_at ad) (sa_key ad) m
  else if String.eqb k "description" then
    mk (title ad) v (price ad) (author ad) (id ad) (created_at ad) (sa_key ad) m
  else if String.eqb k "price" then
    mk (title ad) (description ad) v (author ad) (id ad) (created_at ad) (sa_key ad) m
  else if String.eqb k "author" then
    mk (title ad) (description ad) (price ad) v (id ad) (created_at ad) (sa_key ad) m
  else if String.eqb k "id" then
    mk (title ad) (description ad) (price ad) (author ad) v (created_at ad) (sa_key ad) m
  else if String.eqb k "created_at" then
    mk (title ad) (description ad) (price ad) (author ad) (id ad) v (sa_key ad) m
  else ad.
End Advertisement.

(** ** The table *)

(** A row of table [advertisement], without its primary key: [title],
    [price] and [author] are NOT NULL, [description] is nullable;
    [created_at] is always given a value by its default factory. *)
Record row := mk_row {
  r_title : string;
  r_description : option string;
  r_price : float;
  r_author : string;
  r_created_at : datetime }.

(** The ids of the rows are SQLite integers. *)
Definition keys_ok (m : gmap Z row) : bool :=
  forallb (λ kr, Sqlite.in_int64 kr.1) (map_to_list m).

(** The table: rows by primary key [id]. *)
Record table := Table {
  rows : gmap Z row;
  rows_ok : Is_true (keys_ok rows) }.

(** The table of rows [m]; [t] when a key of [m] is no SQLite integer. *)
Definition table_of (t : table) (m : gmap Z row) : table :=
  match decide (Is_true (keys_ok m)) with
  | left ok => Table m ok
  | right _ => t
  end.

#[global] Instance table_empty : Empty table := Table ∅ I.

#[global] Instance table_lookup : Lookup Z row table := λ k t, rows t !! k.

#[global] Instance table_insert : Insert Z row table :=
  λ k r t, table_of t (<[k:=r]> (rows t)).

#[global] Instance table_delete : Delete Z table :=
  λ k t, table_of t (delete k (rows t)).

#[global] Instance table_dom : Dom table (gset Z) := λ t, dom (rows t).

(** The rowid SQLite gives to a row inserted without one: one more than
    the largest in the table, 1 in an empty table. *)
Definition max_rowid (m : gmap Z row) : option Z :=
  map_fold (λ k _ acc, Some (match acc with Some m => Z.max k m | None => k end)) None m.

Definition next_rowid (t : table) : Z :=
  match max_rowid (rows t) with
  | Some m => m + 1
  | None => 1
  end.

(** The fields of an instance, typed as the response model types them;
    [None] when an attribute is not of its field's type. *)
Definition to_row (ad : Advertisement.t) : option row :=
  match Advertisement.title ad, Advertisement.price ad,
        Advertisement.author ad, Advertisement.created_at ad with
  | PStr ti, PFloat pr, PStr au, PDatetime ca =>
      match Advertisement.description ad with
      | PStr d => Some (mk_row ti (Some d) pr au ca)
      | PNone => Some (mk_row ti None pr au ca)
      | _ => None
      end
  | _, _, _, _ => None
  end.

(** The instance loaded from the row at key [k]. *)
Definition of_row (k : Z) (r : row) : Advertisement.t :=
  {| Advertisement.title := PStr (r_title r);
     Advertisement.description := of_opt_str (r_description r);
     Advertisement.price := PFloat (r_price r);
     Advertisement.author := PStr (r_author r);
     Advertisement.id := PInt k;
     Advertisement.created_at := PDatetime (r_created_at r);
     Advertisement.sa_key := Some k;
     Advertisement.sa_modified := [] |}.

(** The value a column gets from an attribute; [None] when the column
    refuses it: NULL in a NOT NULL column (from [None], or from a NaN,
    which is bound as NULL), or a value that is not of the column's
    type. *)
Definition bind_text (v : pyval) : option string :=
  match v with PStr s => Some s | _ => None end.

Definition bind_nullable_text (v : pyval) : option (option string) :=
  match v with PStr s => Some (Some s) | PNone => Some None | _ => None end.

Definition bind_real (v : pyval) : option float :=
  match v with
  | PFloat x => if isnan x then None else Some (Sqlite.real x)
  | _ => None
  end.

Definition bind_datetime (v : pyval) : option datetime :=
  match v with PDatetime t => Some t | _ => None end.

(** The value written to column [name]: for a new row, and for an
    attribute that was set, the bound attribute; the stored value
    otherwise. *)
Definition column {A} (bind : pyval → option A) (name : string)
    (ad : Advertisement.t) (v : pyval) (stored : option A) : option A :=
  match stored with
  | Some a =>
      if bool_decide (name ∈ Advertisement.sa_modified ad) then bind v else Some a
  | None => bind v
  end.

(** The row a flush writes for [ad], over the stored row [old] if there
    is one. *)
Definition flush_row (ad : Advertisement.t) (old : option row) : option row :=
  ti ← column bind_text "title" ad (Advertisement.title ad) (r_title <$> old);
  d ← column bind_nullable_text "description" ad (Advertisement.description ad)
             (r_description <$> old);
  pr ← column bind_real "price" ad (Advertisement.price ad) (r_price <$> old);
  au ← column bind_text "author" ad (Advertisement.author ad) (r_author <$> old);
  ca ← column bind_datetime "created_at" ad (Advertisement.created_at ad)
              (r_created_at <$> old);
  Some (mk_row ti d pr au ca).

(** ** Sessions: state and exceptions *)

Inductive exn :=
| HTTPException (status_code : Z)
| RequestValidationError
| ResponseValidationError
| IntegrityError
| InvalidRequestError
| OverflowError
| OperationalError
| ValueError.

Inductive result (A : Type) :=
| Return (a : A)
| Raise (e : exn).
Arguments Return {A} a.
Arguments Raise {A} e.

(** A computation with a session: it reads and writes the table and
    returns or raises.  The table it leaves is the committed one. *)
Definition Session (A : Type) : Type := table → result A * table.

#[global] Instance Session_ret : MRet Session := λ A a t, (Return a, t).

#[global] Instance Session_bind : MBind Session := λ A B f m t,
  match m t with
  | (Return a, t') => f a t'
  | (Raise e, t') => (Raise e, t')
  end.

Definition raise {A} (e : exn) : Session A := λ t, (Raise e, t).

(** [session.get(Advertisement, k)] *)
Definition session_get (k : Z) : Session (option Advertisement.t) :=
  λ t,
    if Sqlite.in_int64 k then (Return (of_row k <$> t !! k), t)
    else (Raise OverflowError, t).

(** [session.add(ad); session.commit()]: the flush writes the instance,
    with INSERT when it is new and with UPDATE ... WHERE id = [sa_key]
    when it was loaded; a constraint violation raises and the
    transaction is rolled back.  Returns the primary key of the row.
    When the largest id is the largest integer SQLite looks for a free
    id at random; the embedding stops there with the error SQLite gives
    when it finds none. *)
Definition session_add_commit (ad : Advertisement.t) : Session Z :=
  λ t,
    match Advertisement.sa_key ad with
    | None =>
        match flush_row ad None, Advertisement.id ad with
        | Some r, PNone =>
            let k := next_rowid t in
            if Sqlite.in_int64 k then (Return k, <[k:=r]> t)
            else (Raise OperationalError, t)
        | Some r, PInt k =>
            if Sqlite.in_int64 k then
              match t !! k with
              | None => (Return k, <[k:=r]> t)
              | Some _ => (Raise IntegrityError, t)
              end
            else (Raise OverflowError, t)
        | _, _ => (Raise IntegrityError, t)
        end
    | Some key =>
        match t !! key with
        | None => (Raise InvalidRequestError, t)
        | Some old =>
            match flush_row ad (Some old), Advertisement.id ad with
            | Some r, PInt k =>
                if decide (k = key) then (Return k, <[k:=r]> t)
                else if Sqlite.in_int64 k then
                  match t !! k with
                  | None => (Return k, <[k:=r]> (delete key t))
                  | Some _ => (Raise IntegrityError, t)
                  end
                else (Raise OverflowError, t)
            | _, _ => (Raise IntegrityError, t)
            end
        end
    end.

(** [session.refresh(ad)] for the instance with primary key [k]. *)
Definition session_refresh (k : Z) : Session Advertisement.t :=
  λ t,
    match t !! k with
    | Some r => (Return (of_row k r), t)
    | None => (Raise InvalidRequestError, t)
    end.

(** [session.delete(ad); session.commit()] *)
Definition session_delete_commit (ad : Advertisement.t) : Session unit :=
  λ t,
    match Advertisement.sa_key ad with
    | Some key => (Return (), delete key t)
    | None => (Raise InvalidRequestError, t)
    end.

(** A SELECT on the table: the conjunction of its WHERE clauses, tried
    on a row in the order they were added; [None] when an SQL function
    of a clause that is reached fails. *)
Definition statement := row → option bool.

Definition select : statement := λ _, Some true.

Definition where_ (stmt : statement) (clause : row → option bool) : statement :=
  λ r,
    match stmt r with
    | Some true => clause r
    | other => other
    end.

(** The rows of the table as a scan meets them, by ascending id. *)
Definition by_id (a b : Z * row) : Prop := a.1 ≤ b.1.

#[global] Instance by_id_dec : RelDecision by_id := λ a b, decide (a.1 ≤ b.1).

Definition scan (t : table) : list (Z * row) :=
  merge_sort by_id (map_to_list (rows t)).

(** The rows of a scan that a statement selects; [None] when the
    statement fails on one of them. *)
Fixpoint fetch (stmt : statement) (l : list (Z * row)) : option (list (Z * row)) :=
  match l with
  | [] => Some []
  | kr :: l' =>
      match stmt kr.2 with
      | None => None
      | Some b =>
          match fetch stmt l' with
          | None => None
          | Some selected => Some (if b then kr :: selected else selected)
          end
      end
  end.

(** [session.exec(stmt).all()] *)
Definition session_exec_all (stmt : statement) : Session (list Advertisement.t) :=
  λ t,
    match fetch stmt (scan t) with
    | Some selected => (Return (map (λ kr, of_row kr.1 kr.2) selected), t)
    | None => (Raise OperationalError, t)
    end.

(** Serialisation of what a handler returns through
    [response_model=AdvertisementRead]. *)
Definition read (ad : Advertisement.t) : option AdvertisementRead.t :=
  match to_row ad, Advertisement.id ad with
  | Some r, PInt k =>
      Some (AdvertisementRead.mk (r_title r) (r_description r) (r_price r)
                                 (r_author r) k (r_created_at r))
  | _, _ => None
  end.

Definition response_model (ad : Advertisement.t) : Session AdvertisementRead.t :=
  match read ad with
  | Some r => mret r
  | None => raise ResponseValidationError
  end.

Fixpoint response_model_list (ads : list Advertisement.t)
  : Session (list AdvertisementRead.t) :=
  match ads with
  | [] => mret []
  | ad :: ads' =>
      r ← response_model ad;
      rs ← response_model_list ads';
      mret (r :: rs)
  end.

(** ** The handlers (lines 37-89) *)

Definition create_ad (utcnow : datetime) (ad : AdvertisementCreate.t)
  : Session AdvertisementRead.t :=
  let db_ad := Advertisement.from_orm utcnow ad in
  k ← session_add_commit db_ad;
  db_ad ← session_refresh k;
  response_model db_ad.

Definition update_ad (ad_id : Z) (ad_update : AdvertisementUpdate.t)
  : Session AdvertisementRead.t :=
  ad ← session_get ad_id;
  match ad with
  | None => raise (HTTPException 404)
  | Some ad =>
      let ad := foldl (λ ad kv, Advertisement.setattr ad kv.1 kv.2) ad
                      (AdvertisementUpdate.dict_exclude_unset ad_update) in
      k ← session_add_commit ad;
      ad ← session_refresh k;
      response_model ad
  end.

Definition delete_ad (ad_id : Z) : Session unit :=
  ad ← session_get ad_id;
  match ad with
  | None => raise (HTTPException 404)
  | Some ad => session_delete_commit ad
  end.

Definition get_ad (ad_id : Z) : Session AdvertisementRead.t :=
  ad ← session_get ad_id;
  match ad with
  | None => raise (HTTPException 404)
  | Some ad => response_model ad
  end.

(** The statement [search_ads] builds (lines 80-88). *)
Definition search_stmt (title author : option string) (price_min price_max : option float)
  : statement :=
  let stmt := select in
  let stmt :=
    match title with
    | Some title =>
        if truthy title
        then where_ stmt (λ r, Sqlite.contains (r_title r) title)
        else stmt
    | None => stmt
    end in
  let stmt :=
    match author with
    | Some author =>
        if truthy author
        then where_ stmt (λ r, Some (String.eqb (r_author r) author))
        else stmt
    | None => stmt
    end in
  let stmt :=
    match price_min with
    | Some price_min => where_ stmt (λ r, Some (PrimFloat.leb price_min (r_price r)))
    | None => stmt
    end in
  let stmt :=
    match price_max with
    | Some price_max => where_ stmt (λ r, Some (PrimFloat.leb (r_price r) price_max))
    | None => stmt
    end in
  stmt.

Definition search_ads (title author : option string) (price_min price_max : option float)
  : Session (list AdvertisementRead.t) :=
  ads ← session_exec_all (search_stmt title author price_min price_max);
  response_model_list ads.

(** ** Requests and responses *)

(** A parsed JSON body. *)
#[warnings="-register-all"]
Inductive json :=
| JNull
| JBool (b : bool)
| JNum (x : float)
| JStr (s : string)
| JArr (items : list json)
| JObj (members : list (string * json)).

(** The value of member [k] of an object; of several members with one
    name the last counts. *)
Fixpoint member (k : string) (members : list (string * json)) : option json :=
  match members with
  | [] => None
  | (k', v) :: rest =>
      match member k rest with
      | Some v' => Some v'
      | None => if String.eqb k' k then Some v else None
      end
  end.

Inductive content :=
| NoContent
| Item (ad : AdvertisementRead.t)
| Items (ads : list AdvertisementRead.t)
| Detail (e : exn).

Record response := mk_response { status_code : Z; body : content }.

(** [json.dumps(..., allow_nan=False)] of a content: it raises on a
    float that is not finite. *)
Definition encodable (c : content) : bool :=
  match c with
  | Item ad => isfinite (AdvertisementRead.price ad)
  | Items ads => forallb (λ ad, isfinite (AdvertisementRead.price ad)) ads
  | _ => true
  end.

(** The response to a handler that returned or raised: the route's
    status code on return, the exception's on [HTTPException], 422 on a
    request that does not validate, 500 on anything else, also when
    what the handler returned cannot be encoded. *)
Definition respond {A} (success : Z) (enc : A → content) (r : result A) : response :=
  match r with
  | Return a =>
      if encodable (enc a) then mk_response success (enc a)
      else mk_response 500 (Detail ValueError)
  | Raise (HTTPException c) => mk_response c (Detail (HTTPException c))
  | Raise RequestValidationError => mk_response 422 (Detail RequestValidationError)
  | Raise e => mk_response 500 (Detail e)
  end.

Section Routes.

(** The validators pydantic applies to a non-null value of a [str] and
    of a [float] field. *)
Variable str_validator : json → option string.
Variable float_validator : json → option float.

(** A field [name: T] without default: the member must be there, must
    not be null and must validate. *)
Definition required {T} (validator : json → option T) (name : string)
    (members : list (string * json)) : option T :=
  match member name members with
  | None => None
  | Some JNull => None
  | Some v => validator v
  end.

(** A field [name: Optional[T] = None]: the value, and whether the
    body set it.  A missing member gives the default, null gives
    [None]; both are accepted. *)
Definition optional {T} (validator : json → option T) (name : string)
    (members : list (string * json)) : option (option T * bool) :=
  match member name members with
  | None => Some (None, false)
  | Some JNull => Some (None, true)
  | Some v =>
      match validator v with
      | Some x => Some (Some x, true)
      | None => None
      end
  end.

(** Validation of a body as [AdvertisementCreate]; members that are
    not fields of the model are ignored.  A body that is not an object
    has none of the required fields. *)
Definition validate_create (b : json) : option AdvertisementCreate.t :=
  match b with
  | JObj members =>
      title ← required str_validator "title" members;
      description ← optional str_validator "description" members;
      price ← required float_validator "price" members;
      author ← required str_validator "author" members;
      Some (AdvertisementCreate.mk title description.1 price author)
  | _ => None
  end.

Definition set_name (name : string) (f : bool) : list string :=
  if f then [name] else [].

(** Validation of a body as [AdvertisementUpdate].  The models have
    [orm_mode]: a body that is not an object is read by its attributes.
    An array, a number and a boolean have none of the four, which gives
    the payload that sets no field; a string has an attribute [title],
    a method, which is no [str]. *)
Definition validate_update (b : json) : option AdvertisementUpdate.t :=
  match b with
  | JObj members =>
      title ← optional str_validator "title" members;
      description ← optional str_validator "description" members;
      price ← optional float_validator "price" members;
      author ← optional str_validator "author" members;
      Some (AdvertisementUpdate.mk title.1 description.1 price.1 author.1
              (set_name "title" title.2 ++ set_name "description" description.2
               ++ set_name "price" price.2 ++ set_name "author" author.2))
  | JArr _ | JNum _ | JBool _ => Some (AdvertisementUpdate.mk None None None None [])
  | JStr _ | JNull => None
  end.

(** POST /advertisement, status_code=201 *)
Definition post_advertisement (utcnow : datetime) (b : json) (t : table)
  : response * table :=
  match validate_create b with
  | None => (respond 201 Item (Raise RequestValidationError), t)
  | Some ad => let '(r, t') := create_ad utcnow ad t in (respond 201 Item r, t')
  end.

(** PATCH /advertisement/{ad_id} *)
Definition patch_advertisement (ad_id : Z) (b : json) (t : table)
  : response * table :=
  match validate_update b with
  | None => (respond 200 Item (Raise RequestValidationError), t)
  | Some u => let '(r, t') := update_ad ad_id u t in (respond 200 Item r, t')
  end.

End Routes.

(** DELETE /advertisement/{ad_id}, status_code=204 *)
Definition delete_advertisement (ad_id : Z) (t : table) : response * table :=
  let '(r, t') := delete_ad ad_id t in (respond 204 (λ _, NoContent) r, t').

(** GET /advertisement/{ad_id} *)
Definition get_advertisement (ad_id : Z) (t : table) : response * table :=
  let '(r, t') := get_ad ad_id t in (respond 200 Item r, t').

(** GET /advertisement?title=&author=&price_min=&price_max= *)
Definition get_advertisements (title author : option string)
    (price_min price_max : option float) (t : table) : response * table :=
  let '(r, t') := search_ads title author price_min price_max t in
  (respond 200 Items r, t').

(** Validators that accept a JSON string for [str] and a JSON number for
    [float] and nothing else. *)
Definition strict_str (v : json) : option string :=
  match v with JStr s => Some s | _ => None end.

Definition strict_float (v : json) : option float :=
  match v with JNum x => Some x | _ => None end.

(** ** The end-to-end scenario of the specification *)

Definition bike : json :=
  JObj [("title", JStr "Bike"); ("price", JNum 100); ("author", JStr "A")].

Definition t1 : table := (post_advertisement strict_str strict_float 1000 bike ∅).2.
(** ** Vocabulary of the properties *)

(** The record the service returns for the row at key [k]. *)
Definition record_of (k : Z) (r : row) : AdvertisementRead.t :=
  AdvertisementRead.mk (r_title r) (r_description r) (r_price r) (r_author r)
                       k (r_created_at r).

(** The row of a record. *)
Definition row_of (ad : AdvertisementRead.t) : row :=
  mk_row (AdvertisementRead.title ad) (AdvertisementRead.description ad)
         (AdvertisementRead.price ad) (AdvertisementRead.author ad)
         (AdvertisementRead.created_at ad).

(** [ad] is a stored record of table [t]. *)
Definition stored (t : table) (ad : AdvertisementRead.t) : Prop :=
  t !! AdvertisementRead.id ad = Some (row_of ad).

(** The row [create_ad] inserts. *)
Definition new_row (utcnow : datetime) (ad : AdvertisementCreate.t) : row :=
  mk_row (AdvertisementCreate.title ad) (AdvertisementCreate.description ad)
         (Sqlite.real (AdvertisementCreate.price ad)) (AdvertisementCreate.author ad)
         utcnow.

(** The payload set field [name]: the body of the request carried it. *)
Definition sets (u : AdvertisementUpdate.t) (name : string) : bool :=
  bool_decide (name ∈ AdvertisementUpdate.fields_set u).

(** The value of attribute [name] after the loop of [update_ad]: the
    payload's when the payload set the field, the old one otherwise. *)
Definition assigned (u : AdvertisementUpdate.t) (name : string) (v old : pyval) : pyval :=
  if sets u name then v else old.

(** The names of the fields the payload sets, the last set first. *)
Definition set_names (u : AdvertisementUpdate.t) : list string :=
  (if sets u "author" then ["author"] else [])
  ++ (if sets u "price" then ["price"] else [])
  ++ (if sets u "description" then ["description"] else [])
  ++ (if sets u "title" then ["title"] else []).

(** The instance after the loop of [update_ad]. *)
Definition patched (u : AdvertisementUpdate.t) (ad : Advertisement.t) : Advertisement.t :=
  Advertisement.mk
    (assigned u "title" (of_opt_str (AdvertisementUpdate.title u)) (Advertisement.title ad))
    (assigned u "description" (of_opt_str (AdvertisementUpdate.description u))
              (Advertisement.description ad))
    (assigned u "price" (of_opt_float (AdvertisementUpdate.price u)) (Advertisement.price ad))
    (assigned u "author" (of_opt_str (AdvertisementUpdate.author u)) (Advertisement.author ad))
    (Advertisement.id ad) (Advertisement.created_at ad) (Advertisement.sa_key ad)
    (set_names u ++ Advertisement.sa_modified ad).

(** The row an UPDATE of the row [r] with payload [u] writes: the bound
    value of each field the payload sets, the stored value of the
    others; [None] when a column refuses its value. *)
Definition updated (u : AdvertisementUpdate.t) (r : row) : option row :=
  ti ← (if sets u "title" then AdvertisementUpdate.title u else Some (r_title r));
  pr ← (if sets u "price"
        then x ← AdvertisementUpdate.price u;
             if isnan x then None else Some (Sqlite.real x)
        else Some (r_price r));
  au ← (if sets u "author" then AdvertisementUpdate.author u else Some (r_author r));
  Some (mk_row ti
          (if sets u "description" then AdvertisementUpdate.description u
           else r_description r)
          pr au (r_created_at r)).

(** What the statement of [search_ads] selects: a string filter counts
    when its value is not empty, a price bound when it is given. *)
Definition selects (title author : option string) (price_min price_max : option float)
    (r : row) : Prop :=
  (∀ x, title = Some x → x ≠ "" → Sqlite.contains (r_title r) x = Some true)
  ∧ (∀ a, author = Some a → a ≠ "" → r_author r = a)
  ∧ (∀ lo, price_min = Some lo → PrimFloat.leb lo (r_price r) = true)
  ∧ (∀ hi, price_max = Some hi → PrimFloat.leb (r_price r) hi = true).

(** The pattern [%x%] of a title query [x] is within the length that
    LIKE accepts. *)
Definition within_limit (x : string) : bool :=
  negb (Sqlite.too_complex (Sqlite.contains_pattern x)).

(** The title filter is applied and LIKE refuses its pattern. *)
Definition like_fails (title : option string) : bool :=
  match title with
  | Some x => truthy x && negb (within_limit x)
  | None => false
  end.


(** The responses to [HTTPException(status_code=404)] and to a body
    that does not validate. *)
Definition not_found : response := mk_response 404 (Detail (HTTPException 404)).



(** [o is None] *)
Definition is_none {A} (o : option A) : bool :=
  match o with None => true | Some _ => false end.

(** The payload sets a NOT NULL column ([title], [price], [author]) to
    null. *)
Definition nulls_required (u : AdvertisementUpdate.t) : bool :=
  sets u "title" && is_none (AdvertisementUpdate.title u)
  || sets u "price" && is_none (AdvertisementUpdate.price u)
  || sets u "author" && is_none (AdvertisementUpdate.author u).

(** The payload sets [price] to NaN. *)
Definition sets_nan_price (u : AdvertisementUpdate.t) : bool :=
  sets u "price"
  && match AdvertisementUpdate.price u with Some x => isnan x | None => false end.

(** The response to an exception that no handler catches. *)
Definition server_error (e : exn) : response := mk_response 500 (Detail e).

(** The payload of PATCH {"title": null}. *)
Definition null_title : AdvertisementUpdate.t :=
  AdvertisementUpdate.mk None None None None ["title"].

(** A Create body whose price is infinite, as the JSON number 1e999 is
    parsed, and the payload it validates to. *)
Definition bike_infinite : json :=
  JObj [("title", JStr "Bike"); ("price", JNum infinity); ("author", JStr "A")].

Definition bike_infinite_payload : AdvertisementCreate.t :=
  AdvertisementCreate.mk "Bike" None infinity "A".


(** A title query of 49999 bytes. *)
Definition long_query : string := N.iter 49999 (String "a") "".

(** An id beyond SQLite's 64 bits. *)
Definition beyond_int64 : Z := 2 ^ 63.

(** [ad] is among the records Search returns on table [t]. *)
Definition returned (title author : option string) (price_min price_max : option float)
    (t : table) (ad : AdvertisementRead.t) : Prop :=
  ∃ ads, search_ads title author price_min price_max t = (Return ads, t) ∧ ad ∈ ads.


(** * Properties *)

(** ** Texts *)


Lemma append_cons c s s' : String c s +:+ s' = String c (s +:+ s').
Proof. reflexivity. Qed.



Lemma append_nil_r s : s +:+ "" = s.
Proof. induction s as [|c s IH]; [done|]. by rewrite append_cons, IH. Qed.

(** ** LIKE *)

Section Like.
Import Sqlite.

Lemma tolower_changed c :
  tolower c ≠ c → (65 ≤ nat_of_ascii c ≤ 90)%nat ∧ nat_of_ascii (tolower c) = (nat_of_ascii c + 32)%nat.
Proof.
  unfold tolower. destruct (_ && _)%bool eqn:E; [|done].
  apply andb_prop in E as [E1%Nat.leb_le E2%Nat.leb_le].
  intros _. split; [lia|]. rewrite nat_ascii_embedding; lia.
Qed.

(** Two characters match when they are equal once lowered. *)
Lemma char_match_tolower c c2 : char_match c c2 = true ↔ tolower c = tolower c2.
Proof.
  unfold char_match. rewrite orb_true_iff, !andb_true_iff, !Ascii.eqb_eq,
    !Nat.ltb_lt.
  split.
  - intros [->|[[? _] _]]; done.
  - intros He. destruct (decide (c = c2)) as [|Hne]; [by left|right].
    split_and!; [done|..].
    + destruct (decide (tolower c = c)) as [Hc|Hc].
      * destruct (decide (tolower c2 = c2)) as [Hc2|Hc2]; [congruence|].
        apply tolower_changed in Hc2 as [? Hn].
        rewrite <-He, Hc in Hn. lia.
      * apply tolower_changed in Hc as [? _]. lia.
    + destruct (decide (tolower c2 = c2)) as [Hc2|Hc2].
      * destruct (decide (tolower c = c)) as [Hc|Hc]; [congruence|].
        apply tolower_changed in Hc as [? Hn].
        rewrite He, Hc2 in Hn. lia.
      * apply tolower_changed in Hc2 as [? _]. lia.
Qed.

Lemma tolower_idem c : tolower (tolower c) = tolower c.
Proof.
  destruct (decide (tolower c = c)) as [Hc|Hc]; [by rewrite Hc|].
  apply tolower_changed in Hc as [Hn Hl].
  destruct (decide (tolower (tolower c) = tolower c)) as [|H]; [done|].
  apply tolower_changed in H as [? _]. lia.
Qed.

Lemma tolower_eq_not_small c d :
  (nat_of_ascii d < 97 ∨ 122 < nat_of_ascii d)%nat → tolower c = d → c = d.
Proof.
  intros Hd H. destruct (decide (tolower c = c)) as [Hc|Hc]; [congruence|].
  apply tolower_changed in Hc as [Hn Hl]. rewrite H in Hl. lia.
Qed.

Lemma eqb_tolower_special c d :
  (nat_of_ascii d < 65 ∨ 90 < nat_of_ascii d)%nat →
  (nat_of_ascii d < 97 ∨ 122 < nat_of_ascii d)%nat →
  Ascii.eqb (tolower c) d = Ascii.eqb c d.
Proof.
  intros Hd1 Hd2. destruct (Ascii.eqb_spec c d) as [->|Hne].
  - apply Ascii.eqb_eq. destruct (decide (tolower d = d)) as [|H]; [done|].
    apply tolower_changed in H as [? _]. lia.
  - apply Ascii.eqb_neq. intros H. apply Hne.
    by apply tolower_eq_not_small in H.
Qed.

Lemma eqb_tolower_matchAll c : Ascii.eqb (tolower c) matchAll = Ascii.eqb c matchAll.
Proof. apply eqb_tolower_special; vm_compute; lia. Qed.

Lemma eqb_tolower_matchOne c : Ascii.eqb (tolower c) matchOne = Ascii.eqb c matchOne.
Proof. apply eqb_tolower_special; vm_compute; lia. Qed.

Lemma eqb_tolower_NUL c : Ascii.eqb (tolower c) NUL = Ascii.eqb c NUL.
Proof. apply eqb_tolower_special; vm_compute; lia. Qed.

Lemma char_match_tolower_l c c2 : char_match (tolower c) c2 = char_match c c2.
Proof.
  apply eq_true_iff_eq. by rewrite !char_match_tolower, tolower_idem.
Qed.


(** *** What [%] skips *)


Lemma skip_chars_here k s : k s = true → skip_chars k s false = true.
Proof. intros H. destruct s; cbn [skip_chars andb]; [done|]. by rewrite H. Qed.



(** *** Patterns *)

Lemma patternCompare_matchAll pat s :
  patternCompare (String matchAll pat) s = skip_chars (patternCompare pat) s false.
Proof. reflexivity. Qed.





(** *** Texts up to their NUL *)


Lemma until_nul_idem s : until_nul (until_nul s) = until_nul s.
Proof.
  induction s as [|c s IH]; [done|]. cbn [until_nul].
  destruct (Ascii.eqb c NUL) eqn:E; [done|]. cbn [until_nul]. by rewrite E, IH.
Qed.

Lemma lower_append a b : lower (a +:+ b) = lower a +:+ lower b.
Proof.
  induction a as [|c a IH]; [done|].
  rewrite append_cons. cbn [lower]. by rewrite append_cons, IH.
Qed.

Lemma until_nul_lower s : until_nul (lower s) = lower (until_nul s).
Proof.
  induction s as [|c s IH]; [done|]. cbn [lower until_nul].
  rewrite eqb_tolower_NUL. destruct (Ascii.eqb c NUL); [done|].
  cbn [lower]. by rewrite IH.
Qed.


(** *** The length of a pattern *)

Lemma length_append a b :
  String.length (a +:+ b) = (String.length a + String.length b)%nat.
Proof.
  induction a as [|c a IH]; [done|]. rewrite append_cons. cbn [String.length].
  by rewrite IH.
Qed.

Lemma length_lower s : String.length (lower s) = String.length s.
Proof. induction s as [|c s IH]; [done|]. cbn [lower String.length]. by rewrite IH. Qed.

Lemma within_limit_length x :
  within_limit x = true ↔ Z.of_nat (String.length x) + 2 ≤ 50000.
Proof.
  unfold within_limit, too_complex, contains_pattern, max_like_pattern_length.
  cbn [String.length]. rewrite length_append. cbn [String.length].
  rewrite negb_true_iff, Z.ltb_ge. lia.
Qed.

Lemma within_limit_lower x : within_limit (lower x) = within_limit x.
Proof.
  unfold within_limit, too_complex, contains_pattern. cbn [String.length].
  by rewrite !length_append, length_lower.
Qed.

Lemma like_Some_true pat s :
  too_complex pat = false →
  like pat s = Some true ↔ patternCompare (until_nul pat) (until_nul s) = true.
Proof.
  intros H. unfold like. rewrite H. split; [by intros [= ->]|by intros ->].
Qed.

(** A title query beyond the limit: [contains] fails. *)
Lemma contains_None column x : within_limit x = false → contains column x = None.
Proof.
  intros H%negb_false_iff. unfold contains, like. by rewrite H.
Qed.


(** LIKE does not see the case of the ASCII letters of its pattern. *)
Lemma patternCompare_lower pat s : patternCompare (lower pat) s = patternCompare pat s.
Proof.
  revert s. induction pat as [|c pat IH]; intros s; [done|].
  cbn [lower patternCompare].
  rewrite eqb_tolower_matchAll, eqb_tolower_matchOne.
  destruct (Ascii.eqb c matchAll).
  - generalize false. induction s as [|c2 s IHs]; intros inside; cbn [skip_chars];
      rewrite IH; [done|].
    by rewrite !IHs.
  - destruct (Ascii.eqb c matchOne); destruct s as [|c2 s]; try done.
    by rewrite char_match_tolower_l, IH.
Qed.

Lemma contains_lower column x : contains column (lower x) = contains column x.
Proof.
  unfold contains, like.
  pose proof (within_limit_lower x) as Hl. unfold within_limit in Hl.
  apply (f_equal negb) in Hl. rewrite !negb_involutive in Hl. rewrite Hl.
  destruct (too_complex (contains_pattern x)); [done|]. f_equal.
  unfold contains_pattern.
  rewrite <-(patternCompare_lower
               (until_nul (String matchAll (x +:+ String matchAll EmptyString)))).
  rewrite <-until_nul_lower. cbn [lower]. by rewrite lower_append.
Qed.

(** A text matches itself, whatever may follow of the pattern that
    matches the empty text. *)
Lemma patternCompare_self s tail :
  patternCompare tail EmptyString = true →
  patternCompare (s +:+ tail) s = true.
Proof.
  intros Ht. induction s as [|c s IH]; [done|]. rewrite append_cons.
  cbn [patternCompare].
  destruct (Ascii.eqb c matchAll) eqn:E1.
  - cbn [skip_chars andb]. apply orb_true_iff. right.
    apply Ascii.eqb_eq in E1 as ->. change (is_lead matchAll) with false.
    by apply skip_chars_here.
  - destruct (Ascii.eqb c matchOne) eqn:E2.
    + apply Ascii.eqb_eq in E2 as ->. by change (is_lead matchOne) with false.
    + rewrite IH, andb_true_r. unfold char_match. by rewrite Ascii.eqb_refl.
Qed.

Lemma until_nul_append_cases a b :
  until_nul (a +:+ b) = until_nul a ∨ until_nul (a +:+ b) = until_nul a +:+ until_nul b.
Proof.
  induction a as [|c a IH]; [by right|]. rewrite append_cons. cbn [until_nul].
  destruct (Ascii.eqb c NUL); [by left|].
  destruct IH as [->| ->]; [by left|by right].
Qed.

(** Every text contains itself, wildcards and NUL or not. *)
Lemma contains_self s : within_limit s = true → contains s s = Some true.
Proof.
  intros Hfit. unfold contains.
  rewrite like_Some_true by by apply negb_true_iff. unfold contains_pattern.
  cbn [until_nul].
  change (Ascii.eqb matchAll NUL) with false. cbv iota.
  rewrite patternCompare_matchAll. apply skip_chars_here.
  destruct (until_nul_append_cases s (String matchAll EmptyString)) as [->| ->].
  - rewrite <-(append_nil_r (until_nul s)) at 1.
    by apply patternCompare_self.
  - by apply patternCompare_self.
Qed.
End Like.

(** ** The table *)

Lemma keys_ok_spec (m : gmap Z row) :
  Is_true (keys_ok m) ↔ ∀ k r, m !! k = Some r → Sqlite.in_int64 k = true.
Proof.
  unfold keys_ok. rewrite forallb_True, Forall_forall. split.
  - intros H k r Hk. apply Is_true_true. apply (H (k, r)).
    by apply elem_of_map_to_list.
  - intros H [k r] Hk%elem_of_map_to_list. apply Is_true_true. by apply (H k r).
Qed.

Lemma table_eq (t1 t2 : table) : rows t1 = rows t2 → t1 = t2.
Proof.
  destruct t1 as [m1 H1], t2 as [m2 H2]. cbn. intros ->.
  f_equal. apply proof_irrel.
Qed.

Lemma rows_table_of t m : Is_true (keys_ok m) → rows (table_of t m) = m.
Proof. intros H. unfold table_of. by destruct (decide _). Qed.

Lemma table_lookup_in_int64 (t : table) k : is_Some (t !! k) → Sqlite.in_int64 k = true.
Proof.
  intros [r Hk]. by apply (proj1 (keys_ok_spec (rows t)) (rows_ok t) k r).
Qed.

Lemma rows_insert (t : table) k r :
  Sqlite.in_int64 k = true → rows (<[k:=r]> t) = <[k:=r]> (rows t).
Proof.
  intros Hk. apply rows_table_of, keys_ok_spec. intros j r' Hj.
  destruct (decide (k = j)) as [<-|Hne]; [done|].
  rewrite lookup_insert_ne in Hj by done.
  apply (table_lookup_in_int64 t). by exists r'.
Qed.

Lemma rows_delete (t : table) k : rows (delete k t) = delete k (rows t).
Proof.
  apply rows_table_of, keys_ok_spec. intros j r' [_ Hj]%lookup_delete_Some.
  apply (table_lookup_in_int64 t). by exists r'.
Qed.

Lemma table_lookup_unfold (t : table) k : t !! k = rows t !! k.
Proof. reflexivity. Qed.

Lemma table_lookup_empty k : (∅ : table) !! k = None.
Proof. reflexivity. Qed.

Lemma table_lookup_insert_eq (t : table) k r :
  Sqlite.in_int64 k = true → <[k:=r]> t !! k = Some r.
Proof. intros Hk. by rewrite table_lookup_unfold, rows_insert, lookup_insert_eq. Qed.

Lemma table_insert_out (t : table) k r : Sqlite.in_int64 k = false → <[k:=r]> t = t.
Proof.
  intros Hk. unfold insert, table_insert, table_of.
  destruct (decide _) as [H|]; [|done]. exfalso.
  assert (Sqlite.in_int64 k = true); [|congruence].
  apply (proj1 (keys_ok_spec _) H k r), lookup_insert_eq.
Qed.

Lemma table_lookup_insert_ne (t : table) k j r : k ≠ j → <[k:=r]> t !! j = t !! j.
Proof.
  intros Hne. destruct (Sqlite.in_int64 k) eqn:Hk.
  - by rewrite !table_lookup_unfold, rows_insert, lookup_insert_ne.
  - by rewrite table_insert_out.
Qed.

Lemma table_lookup_delete_eq (t : table) k : delete k t !! k = None.
Proof. by rewrite table_lookup_unfold, rows_delete, lookup_delete_eq. Qed.

Lemma table_lookup_delete_ne (t : table) k j : k ≠ j → delete k t !! j = t !! j.
Proof. intros. by rewrite !table_lookup_unfold, rows_delete, lookup_delete_ne. Qed.

Lemma table_lookup_delete_Some (t : table) k j r :
  delete k t !! j = Some r ↔ k ≠ j ∧ t !! j = Some r.
Proof. by rewrite !table_lookup_unfold, rows_delete, lookup_delete_Some. Qed.

Lemma table_insert_insert_eq (t : table) k r r' :
  <[k:=r]> (<[k:=r']> t) = <[k:=r]> t.
Proof.
  destruct (Sqlite.in_int64 k) eqn:Hk.
  - apply table_eq. by rewrite !rows_insert, insert_insert_eq.
  - by rewrite !table_insert_out.
Qed.

Lemma table_insert_id (t : table) k r : t !! k = Some r → <[k:=r]> t = t.
Proof.
  intros H. apply table_eq. rewrite rows_insert.
  - by apply insert_id.
  - apply (table_lookup_in_int64 t). by exists r.
Qed.

Lemma table_delete_insert_id (t : table) k r :
  t !! k = None → delete k (<[k:=r]> t) = t.
Proof.
  intros H. destruct (Sqlite.in_int64 k) eqn:Hk.
  - apply table_eq. by rewrite rows_delete, rows_insert, delete_insert_id.
  - rewrite table_insert_out by done. apply table_eq.
    rewrite rows_delete. by apply delete_id.
Qed.

Lemma table_dom_insert_lookup (t : table) k r :
  is_Some (t !! k) → dom (<[k:=r]> t) = dom t.
Proof.
  intros H. unfold dom, table_dom.
  rewrite rows_insert by by apply (table_lookup_in_int64 t).
  by apply dom_insert_lookup_L.
Qed.

(** ** The model, the rows and the session *)

Lemma row_of_record_of k r : row_of (record_of k r) = r.
Proof. by destruct r. Qed.

Lemma stored_iff t ad :
  stored t ad ↔ ∃ k r, t !! k = Some r ∧ ad = record_of k r.
Proof.
  unfold stored. split.
  - intros H. exists (AdvertisementRead.id ad), (row_of ad). split; [done|].
    by destruct ad.
  - intros (k & r & H & ->). by rewrite row_of_record_of.
Qed.

#[global] Instance record_of_inj : Inj (=) (=) (λ kr : Z * row, record_of kr.1 kr.2).
Proof.
  intros [k1 [a1 b1 c1 d1 e1]] [k2 [a2 b2 c2 d2 e2]] H.
  unfold record_of in H. simpl in H. by injection H as -> -> -> -> -> ->.
Qed.

Lemma max_rowid_ge (m : gmap Z row) k :
  is_Some (m !! k) → ∃ mx, max_rowid m = Some mx ∧ k ≤ mx.
Proof.
  unfold max_rowid. revert k.
  apply (map_fold_weak_ind
           (λ acc (m : gmap Z row), ∀ k, is_Some (m !! k) → ∃ mx, acc = Some mx ∧ k ≤ mx)).
  - intros k [? H]. by rewrite lookup_empty in H.
  - intros i x m0 acc Hi IH k Hk.
    destruct (decide (i = k)) as [->|Hne].
    + destruct acc as [mx|]; eexists; (split; [done|]); lia.
    + rewrite lookup_insert_ne in Hk by done.
      destruct (IH k Hk) as (mx & -> & Hle).
      eexists; split; [done|]. lia.
Qed.

Lemma max_rowid_stored (m : gmap Z row) mx : max_rowid m = Some mx → is_Some (m !! mx).
Proof.
  unfold max_rowid. revert mx.
  apply (map_fold_weak_ind
           (λ acc (m0 : gmap Z row), ∀ mx, acc = Some mx → is_Some (m0 !! mx))).
  - done.
  - intros i x m0 acc Hi IH mx [= <-].
    destruct acc as [m1|]; [|by rewrite lookup_insert_eq].
    destruct (Z.max_spec i m1) as [[_ ->]|[_ ->]]; [|by rewrite lookup_insert_eq].
    destruct (IH m1 eq_refl) as [y Hy].
    rewrite lookup_insert_ne; [by eexists|]. intros ->. by rewrite Hi in Hy.
Qed.

Lemma next_rowid_above (t : table) k : is_Some (t !! k) → k < next_rowid t.
Proof.
  intros Hk. destruct (max_rowid_ge (rows t) k Hk) as (m & Hm & Hle).
  unfold next_rowid. rewrite Hm. lia.
Qed.

(** The generated id is not in use. *)
Lemma next_rowid_fresh (t : table) : t !! next_rowid t = None.
Proof.
  destruct (t !! next_rowid t) as [r|] eqn:E; [|done].
  assert (next_rowid t < next_rowid t); [|lia].
  apply next_rowid_above. by eexists.
Qed.

Lemma next_rowid_insert (t : table) r :
  Sqlite.in_int64 (next_rowid t) = true →
  next_rowid (<[next_rowid t := r]> t) = next_rowid t + 1.
Proof.
  intros Hin. set (n := next_rowid t) in *.
  destruct (max_rowid_ge (rows (<[n:=r]> t)) n) as (m & Hm & Hle).
  { rewrite <-table_lookup_unfold, table_lookup_insert_eq by done. by eexists. }
  pose proof (max_rowid_stored _ _ Hm) as Hs.
  unfold next_rowid at 1. rewrite Hm.
  destruct (decide (m = n)) as [->|Hne]; [done|].
  rewrite <-table_lookup_unfold, table_lookup_insert_ne in Hs by done.
  apply next_rowid_above in Hs. fold n in Hs. lia.
Qed.

Lemma to_row_of_row k r : to_row (of_row k r) = Some r.
Proof. by destruct r as [? [?|] ? ? ?]. Qed.

Lemma read_of_row k r : read (of_row k r) = Some (record_of k r).
Proof. unfold read. by rewrite to_row_of_row. Qed.

Lemma response_model_of_row k r t :
  response_model (of_row k r) t = (Return (record_of k r), t).
Proof. unfold response_model. by rewrite read_of_row. Qed.

Lemma response_model_list_of_rows (l : list (Z * row)) t :
  response_model_list (map (λ kr, of_row kr.1 kr.2) l) t
  = (Return (map (λ kr, record_of kr.1 kr.2) l), t).
Proof.
  induction l as [|[k r] l IH]; [done|].
  cbn [map response_model_list]. unfold mbind, Session_bind.
  rewrite response_model_of_row. fold (@mbind Session _). unfold mbind, Session_bind.
  by rewrite IH.
Qed.

Lemma real_idem x : Sqlite.real (Sqlite.real x) = Sqlite.real x.
Proof. unfold Sqlite.real. destruct (classify x) eqn:E; by rewrite ?E. Qed.

Lemma isfinite_not_nan x : isfinite x = true → isnan x = false.
Proof. unfold isfinite, isnan. by destruct (classify x). Qed.


Lemma isfinite_real x : isfinite x = true → isfinite (Sqlite.real x) = true.
Proof.
  unfold isfinite, Sqlite.real. destruct (classify x) eqn:E; by rewrite ?E.
Qed.

(** ** The handlers, as equations on the table *)

Lemma get_ad_eq k (t : table) :
  get_ad k t
  = if Sqlite.in_int64 k then
      match t !! k with
      | Some r => (Return (record_of k r), t)
      | None => (Raise (HTTPException 404), t)
      end
    else (Raise OverflowError, t).
Proof.
  unfold get_ad, mbind, Session_bind, session_get.
  destruct (Sqlite.in_int64 k); [|done].
  destruct (t !! k) as [r|]; [|done]. apply response_model_of_row.
Qed.

Lemma get_ad_stored k (t : table) r :
  t !! k = Some r → get_ad k t = (Return (record_of k r), t).
Proof.
  intros Hk. rewrite get_ad_eq, Hk, (table_lookup_in_int64 t k); [done|].
  rewrite Hk. by eexists.
Qed.

Lemma delete_ad_eq k (t : table) :
  delete_ad k t
  = if Sqlite.in_int64 k then
      match t !! k with
      | Some _ => (Return (), delete k t)
      | None => (Raise (HTTPException 404), t)
      end
    else (Raise OverflowError, t).
Proof.
  unfold delete_ad, mbind, Session_bind, session_get.
  destruct (Sqlite.in_int64 k); [|done].
  by destruct (t !! k) as [r|].
Qed.

Lemma create_ad_eq utcnow ad (t : table) :
  create_ad utcnow ad t
  = if isnan (AdvertisementCreate.price ad) then (Raise IntegrityError, t)
    else if Sqlite.in_int64 (next_rowid t) then
      (Return (record_of (next_rowid t) (new_row utcnow ad)),
       <[next_rowid t := new_row utcnow ad]> t)
    else (Raise OperationalError, t).
Proof.
  unfold create_ad, mbind, Session_bind, session_add_commit.
  cbn [Advertisement.from_orm Advertisement.sa_key Advertisement.id].
  assert (flush_row (Advertisement.from_orm utcnow ad) None
          = if isnan (AdvertisementCreate.price ad) then None
            else Some (new_row utcnow ad)) as ->.
  { destruct ad as [ti [d|] pr au]; cbn; by destruct (isnan pr). }
  destruct (isnan _); [done|].
  destruct (Sqlite.in_int64 (next_rowid t)) eqn:Hin; [|done].
  unfold session_refresh. rewrite table_lookup_insert_eq by done.
  by rewrite response_model_of_row.
Qed.

Lemma setattr_loop u ad :
  foldl (λ ad kv, Advertisement.setattr ad kv.1 kv.2) ad
        (AdvertisementUpdate.dict_exclude_unset u)
  = patched u ad.
Proof.
  unfold AdvertisementUpdate.dict_exclude_unset, AdvertisementUpdate.fields, patched,
    assigned, set_names, sets.
  rewrite !filter_cons, filter_nil. cbn [fst snd].
  destruct ad.
  repeat case_bool_decide; repeat case_decide; done.
Qed.

Lemma flush_row_patched u k r :
  flush_row (patched u (of_row k r)) (Some r) = updated u r.
Proof.
  unfold flush_row, updated, column, patched, assigned, set_names.
  cbn [of_row Advertisement.title Advertisement.description Advertisement.price
       Advertisement.author Advertisement.created_at Advertisement.sa_modified
       fmap option_fmap option_map].
  rewrite app_nil_r.
  destruct u as [ti d pr au fs], r as [rt rd rp ra rc].
  cbn [AdvertisementUpdate.title AdvertisementUpdate.description
       AdvertisementUpdate.price AdvertisementUpdate.author
       r_title r_description r_price r_author r_created_at].
  destruct (sets _ "title"), (sets _ "description"), (sets _ "price"),
    (sets _ "author"), ti, d, pr, au, rd; vm_compute bool_decide; cbn;
    repeat (match goal with |- context [isnan ?x] => destruct (isnan x) end; cbn);
    reflexivity.
Qed.

Lemma update_ad_eq k (t : table) u :
  update_ad k u t
  = if Sqlite.in_int64 k then
      match t !! k with
      | None => (Raise (HTTPException 404), t)
      | Some r =>
          match updated u r with
          | Some r' => (Return (record_of k r'), <[k:=r']> t)
          | None => (Raise IntegrityError, t)
          end
      end
    else (Raise OverflowError, t).
Proof.
  unfold update_ad, mbind, Session_bind, session_get.
  destruct (Sqlite.in_int64 k) eqn:Hin; [|done].
  destruct (t !! k) as [r|] eqn:Hk; [|done]. cbn [fmap option_fmap option_map].
  rewrite setattr_loop. unfold session_add_commit.
  cbn [patched of_row Advertisement.sa_key Advertisement.id]. rewrite Hk.
  change (Advertisement.mk _ _ _ _ _ _ _ _) with (patched u (of_row k r)).
  rewrite flush_row_patched.
  destruct (updated u r) as [r'|]; [|done].
  rewrite decide_True by done.
  unfold session_refresh. rewrite table_lookup_insert_eq by done.
  by rewrite response_model_of_row.
Qed.

Lemma update_ad_stored k (t : table) u r :
  t !! k = Some r →
  update_ad k u t
  = match updated u r with
    | Some r' => (Return (record_of k r'), <[k:=r']> t)
    | None => (Raise IntegrityError, t)
    end.
Proof.
  intros Hk. rewrite update_ad_eq, Hk, (table_lookup_in_int64 t k); [done|].
  rewrite Hk. by eexists.
Qed.

Lemma updated_created_at u r r' : updated u r = Some r' → r_created_at r' = r_created_at r.
Proof.
  unfold updated. intros H. repeat case_match; simplify_option_eq; done.
Qed.

Lemma updated_again u r r' : updated u r = Some r' → updated u r' = Some r'.
Proof.
  unfold updated. destruct u as [ti d pr au fs], r as [rt rd rp ra rc].
  cbn [AdvertisementUpdate.title AdvertisementUpdate.description
       AdvertisementUpdate.price AdvertisementUpdate.author
       r_title r_description r_price r_author r_created_at].
  destruct (sets _ "title"), (sets _ "description"), (sets _ "price"),
    (sets _ "author"), ti, d, pr, au, rd; cbn;
    repeat (match goal with |- context [isnan ?x] => destruct (isnan x) eqn:? end; cbn);
    intros H; simplify_eq; cbn; rewrite ?H; reflexivity.
Qed.

(** ** Search *)

Lemma truthy_iff s : truthy s = true ↔ s ≠ "".
Proof. unfold truthy. by rewrite negb_true_iff, String.eqb_neq. Qed.

Lemma where_spec (stmt : statement) (clause : row → option bool) r b c (Q R : Prop) :
  stmt r = Some b → (b = true ↔ Q) →
  clause r = Some c → (c = true ↔ R) →
  ∃ b', where_ stmt clause r = Some b' ∧ (b' = true ↔ Q ∧ R).
Proof.
  intros Hs HQ Hc HR. unfold where_. rewrite Hs. destruct b.
  - exists c. split; [done|]. rewrite HR. split; [|by intros [_ ?]].
    intros ?. split; [by apply HQ|done].
  - exists false. split; [done|]. split; [done|]. intros [HQ' _].
    by apply HQ in HQ'.
Qed.

(** A clause that is added when its query value is truthy. *)
Lemma where_truthy_spec (o : option string) (clause : string → row → option bool)
    (stmt : statement) r b (Q : Prop) (R : string → Prop) :
  stmt r = Some b → (b = true ↔ Q) →
  (∀ x, o = Some x → x ≠ "" → ∃ c, clause x r = Some c ∧ (c = true ↔ R x)) →
  ∃ b', match o with
        | Some x => if truthy x then where_ stmt (clause x) else stmt
        | None => stmt
        end r = Some b'
        ∧ (b' = true ↔ Q ∧ ∀ x, o = Some x → x ≠ "" → R x).
Proof.
  intros Hs HQ Hc. destruct o as [x|].
  - destruct (truthy x) eqn:Ex.
    + apply truthy_iff in Ex. destruct (Hc x eq_refl Ex) as (c & Hcx & HR).
      destruct (where_spec stmt (clause x) r b c Q (R x)) as (b' & Hb' & Hiff);
        [done..|].
      exists b'. split; [done|]. rewrite Hiff. split.
      * intros [? ?]. split; [done|]. by intros ? [= <-] _.
      * intros [? H]. split; [done|]. by apply H.
    + apply not_true_iff_false in Ex. rewrite truthy_iff in Ex.
      exists b. split; [done|]. rewrite HQ. split; [|by intros [? _]].
      intros ?. split; [done|]. intros ? [= <-] ?. by destruct Ex.
  - exists b. split; [done|]. rewrite HQ. split; [|by intros [? _]].
    intros ?. split; [done|]. by intros ? [=].
Qed.

(** A clause that is added when its query value is given. *)
Lemma where_given_spec {X} (o : option X) (clause : X → row → option bool)
    (stmt : statement) r b (Q : Prop) (R : X → Prop) :
  stmt r = Some b → (b = true ↔ Q) →
  (∀ x, ∃ c, clause x r = Some c ∧ (c = true ↔ R x)) →
  ∃ b', match o with
        | Some x => where_ stmt (clause x)
        | None => stmt
        end r = Some b'
        ∧ (b' = true ↔ Q ∧ ∀ x, o = Some x → R x).
Proof.
  intros Hs HQ Hc. destruct o as [x|].
  - destruct (Hc x) as (c & Hcx & HR).
    destruct (where_spec stmt (clause x) r b c Q (R x)) as (b' & Hb' & Hiff);
      [done..|].
    exists b'. split; [done|]. rewrite Hiff. split.
    + intros [? ?]. split; [done|]. by intros ? [= <-].
    + intros [? H]. split; [done|]. by apply H.
  - exists b. split; [done|]. rewrite HQ. split; [|by intros [? _]].
    intros ?. split; [done|]. by intros ? [=].
Qed.

(** The statement on a row, when LIKE accepts the pattern of the title
    filter. *)
Lemma search_stmt_Some title author price_min price_max r :
  like_fails title = false →
  ∃ b, search_stmt title author price_min price_max r = Some b
       ∧ (b = true ↔ selects title author price_min price_max r).
Proof.
  intros Hf. unfold search_stmt. cbv zeta.
  edestruct (where_truthy_spec title (λ x r, Sqlite.contains (r_title r) x)
               select r true True
               (λ x, Sqlite.contains (r_title r) x = Some true))
    as (b1 & H1 & Hb1); [done|done| |].
  { intros x -> Hx%truthy_iff. cbn [like_fails] in Hf. rewrite Hx in Hf.
    apply negb_false_iff in Hf. unfold within_limit in Hf.
    apply negb_true_iff in Hf. unfold Sqlite.contains, Sqlite.like. rewrite Hf.
    eexists. split; [done|].
    split; [intros H; f_equal; exact H|intros [= H]; exact H]. }
  edestruct (where_truthy_spec author (λ a r, Some (String.eqb (r_author r) a))
               _ r b1 _ (λ a, r_author r = a) H1 Hb1)
    as (b2 & H2 & Hb2).
  { intros a _ _. eexists. split; [done|]. apply String.eqb_eq. }
  edestruct (where_given_spec price_min
               (λ lo r, Some (PrimFloat.leb lo (r_price r)))
               _ r b2 _ (λ lo, PrimFloat.leb lo (r_price r) = true) H2 Hb2)
    as (b3 & H3 & Hb3).
  { intros lo. by eexists. }
  edestruct (where_given_spec price_max
               (λ hi r, Some (PrimFloat.leb (r_price r) hi))
               _ r b3 _ (λ hi, PrimFloat.leb (r_price r) hi = true) H3 Hb3)
    as (b4 & H4 & Hb4).
  { intros hi. by eexists. }
  exists b4. split; [exact H4|]. rewrite Hb4. unfold selects. tauto.
Qed.

(** The statement on a row, when LIKE refuses the pattern. *)
Lemma search_stmt_None title author price_min price_max r :
  like_fails title = true →
  search_stmt title author price_min price_max r = None.
Proof.
  destruct title as [x|]; [|done]. cbn [like_fails].
  intros [Hx Hf%negb_true_iff]%andb_prop.
  unfold search_stmt, where_, select. rewrite Hx.
  destruct author as [a|]; [destruct (truthy a)|];
    destruct price_min, price_max; cbv beta iota zeta;
    by rewrite (contains_None _ _ Hf).
Qed.

Lemma selects_like_fails title author price_min price_max r :
  like_fails title = true → ¬ selects title author price_min price_max r.
Proof.
  destruct title as [x|]; [|done]. cbn [like_fails].
  intros [Hx%truthy_iff Hf%negb_true_iff]%andb_prop [HT _].
  specialize (HT x eq_refl Hx). by rewrite (contains_None _ _ Hf) in HT.
Qed.

Lemma fetch_Some (stmt : statement) l :
  (∀ kr, kr ∈ l → is_Some (stmt kr.2)) →
  fetch stmt l = Some (filter (λ kr : Z * row, stmt kr.2 = Some true) l).
Proof.
  induction l as [|kr l IH]; [done|]. intros H. cbn [fetch].
  destruct (H kr) as [b Hb]; [by left|]. rewrite Hb, IH by (intros; apply H; by right).
  rewrite filter_cons, Hb. destruct b; by case_decide.
Qed.

Lemma fetch_None (stmt : statement) l :
  l ≠ [] → (∀ r, stmt r = None) → fetch stmt l = None.
Proof. destruct l as [|kr l]; [done|]. intros _ H. cbn [fetch]. by rewrite H. Qed.

Lemma scan_Permutation (t : table) : scan t ≡ₚ map_to_list (rows t).
Proof. apply merge_sort_Permutation. Qed.

Lemma elem_of_scan (t : table) k r : (k, r) ∈ scan t ↔ t !! k = Some r.
Proof. by rewrite scan_Permutation, elem_of_map_to_list. Qed.

Lemma NoDup_scan (t : table) : NoDup (scan t).
Proof. rewrite scan_Permutation. apply NoDup_map_to_list. Qed.

Lemma scan_nil (t : table) : scan t = [] ↔ ∀ k, t !! k = None.
Proof.
  split.
  - intros H k. destruct (t !! k) as [r|] eqn:Hk; [|done].
    apply elem_of_scan in Hk. rewrite H in Hk. by apply elem_of_nil in Hk.
  - intros H. destruct (scan t) as [|[k r] l] eqn:E; [done|].
    assert ((k, r) ∈ scan t) as Hin by (rewrite E; by left).
    apply elem_of_scan in Hin. by rewrite H in Hin.
Qed.

(** Search when LIKE accepts the pattern of the title filter (and when
    there is no title filter): each stored record that the statement
    selects, once. *)
Lemma search_ads_spec title author price_min price_max (t : table) :
  like_fails title = false →
  ∃ ads,
    search_ads title author price_min price_max t = (Return ads, t)
    ∧ NoDup ads
    ∧ ∀ ad, ad ∈ ads
            ↔ stored t ad ∧ selects title author price_min price_max (row_of ad).
Proof.
  intros Hf. unfold search_ads, mbind, Session_bind, session_exec_all.
  rewrite fetch_Some.
  2:{ intros kr _. destruct (search_stmt_Some title author price_min price_max kr.2 Hf)
        as (b & -> & _). by eexists. }
  rewrite response_model_list_of_rows.
  eexists. split; [done|]. split.
  - apply (NoDup_fmap_2 _). apply NoDup_filter, NoDup_scan.
  - intros ad. rewrite list_elem_of_fmap, stored_iff.
    assert (∀ r, search_stmt title author price_min price_max r = Some true
                 ↔ selects title author price_min price_max r) as Hsel.
    { intros r. destruct (search_stmt_Some title author price_min price_max r Hf)
        as (b & -> & <-). split; [by intros [= ->]|by intros ->]. }
    split.
    + intros ([k r] & -> & [Hs Hin]%list_elem_of_filter).
      apply elem_of_scan in Hin. cbn [fst snd] in *.
      rewrite row_of_record_of. split; [by exists k, r|].
      by apply Hsel.
    + intros [(k & r & Hk & ->) Hs]. exists (k, r). split; [done|].
      apply list_elem_of_filter. split.
      * rewrite row_of_record_of in Hs. by apply Hsel.
      * by apply elem_of_scan.
Qed.

(** Search when LIKE refuses the pattern of the title filter: the
    statement fails on the first row. *)
Lemma search_ads_fails title author price_min price_max (t : table) k :
  like_fails title = true → is_Some (t !! k) →
  search_ads title author price_min price_max t = (Raise OperationalError, t).
Proof.
  intros Hf [r Hk]. unfold search_ads, mbind, Session_bind, session_exec_all.
  rewrite fetch_None; [done| |by intros; apply search_stmt_None].
  intros H. rewrite scan_nil in H. by rewrite H in Hk.
Qed.

Lemma search_ads_empty title author price_min price_max (t : table) :
  (∀ k, t !! k = None) →
  search_ads title author price_min price_max t = (Return [], t).
Proof.
  intros H%scan_nil. unfold search_ads, mbind, Session_bind, session_exec_all.
  by rewrite H.
Qed.

(** Search returns, or fails as LIKE does. *)
Lemma search_ads_cases title author price_min price_max (t : table) :
  (∃ ads, search_ads title author price_min price_max t = (Return ads, t))
  ∨ search_ads title author price_min price_max t = (Raise OperationalError, t).
Proof.
  unfold search_ads, mbind, Session_bind, session_exec_all.
  destruct (fetch _ _); [|by right].
  rewrite response_model_list_of_rows. left. by eexists.
Qed.

Lemma returned_iff title author price_min price_max (t : table) ad :
  returned title author price_min price_max t ad
  ↔ stored t ad ∧ selects title author price_min price_max (row_of ad).
Proof.
  unfold returned. destruct (like_fails title) eqn:Hf.
  - split.
    + intros (ads & Hs & Hin). exfalso.
      destruct (scan t) as [|[k r] l] eqn:E.
      * rewrite scan_nil in E.
        rewrite (search_ads_empty _ _ _ _ _ E) in Hs. injection Hs as <-.
        by apply elem_of_nil in Hin.
      * assert (is_Some (t !! k)) as Hk.
        { exists r. apply elem_of_scan. rewrite E. by left. }
        by rewrite (search_ads_fails _ _ _ _ _ _ Hf Hk) in Hs.
    + intros [_ Hsel]. by apply selects_like_fails in Hsel.
  - destruct (search_ads_spec title author price_min price_max t Hf)
      as (ads & Hs & _ & Hin).
    rewrite <-Hin. split.
    + intros (ads' & Hs' & H). rewrite Hs in Hs'. by injection Hs' as <-.
    + intros H. by exists ads.
Qed.

Lemma selects_none r : selects None None None None r.
Proof. unfold selects. split_and!; intros ? ?; simplify_eq. Qed.

(** ** The table of the scenario: one advertisement, "Bike" *)

Lemma t1_lookup : t1 !! 1 = Some (mk_row "Bike" None 100 "A" 1000).
Proof. vm_compute. reflexivity. Qed.

Example t1_rows : scan t1 = [(1, mk_row "Bike" None 100 "A" 1000)].
Proof. vm_compute. reflexivity. Qed.

Example scenario :
  let post := post_advertisement strict_str strict_float 1000 bike ∅ in
  let patch := patch_advertisement strict_str strict_float 1
                 (JObj [("price", JNum 80)]) post.2 in
  let del := delete_advertisement 1 patch.2 in
  let get := get_advertisement 1 del.2 in
  post.1 = mk_response 201
             (Item (AdvertisementRead.mk "Bike" None 100 "A" 1 1000))
  ∧ patch.1 = mk_response 200
                (Item (AdvertisementRead.mk "Bike" None 80 "A" 1 1000))
  ∧ del.1 = mk_response 204 NoContent
  ∧ get.1 = mk_response 404 (Detail (HTTPException 404)).
Proof. vm_compute. done. Qed.

(** SQLite's LIKE on texts of several bytes and on a NUL: [_] stands
    for a whole character, and the text after a NUL is not read. *)
Example like_examples :
  Sqlite.like "B_ke" "Béke" = Some true
  ∧ Sqlite.like "B__ke" "Béke" = Some false
  ∧ Sqlite.like "%__" "€" = Some false
  ∧ Sqlite.contains (String "a" (String Sqlite.NUL "b")) "b" = Some false
  ∧ Sqlite.contains (String "a" (String Sqlite.NUL "b")) "a" = Some true.
Proof. vm_compute. done. Qed.

(** A title query of 49999 bytes makes a pattern of 50001: on a table
    that holds a record LIKE refuses it, and the search fails. *)
Example like_too_complex :
  within_limit long_query = false
  ∧ get_advertisements (Some long_query) None None None t1
    = (server_error OperationalError, t1)
  ∧ get_advertisements (Some long_query) None None None ∅
    = (mk_response 200 (Items []), ∅).
Proof.
  assert (within_limit long_query = false) as Hf by (vm_compute; reflexivity).
  assert (like_fails (Some long_query) = true) as Hl by (vm_compute; reflexivity).
  assert (is_Some (t1 !! 1)) as Hk by (rewrite t1_lookup; by eexists).
  pose proof (search_ads_fails (Some long_query) None None None t1 1 Hl Hk) as H1.
  pose proof (search_ads_empty (Some long_query) None None None ∅ table_lookup_empty)
    as H0.
  split; [exact Hf|]. unfold get_advertisements. split.
  - rewrite H1. reflexivity.
  - rewrite H0. reflexivity.
Qed.

(** * The claims *)

(** ** Search by title *)




(** ** Search by price *)


Example search_price_10_20 :
  let t : table := <[1 := mk_row "a" None 9.5 "A" 0]>
                  (<[2 := mk_row "b" None 10 "A" 0]>
                  (<[3 := mk_row "c" None 20 "A" 0]>
                  (<[4 := mk_row "d" None 20.5 "A" 0]> ∅))) in
  (get_advertisements None None (Some 10%float) (Some 20%float) t).1
  = mk_response 200 (Items [AdvertisementRead.mk "b" None 10 "A" 2 0;
                            AdvertisementRead.mk "c" None 20 "A" 3 0]).
Proof. vm_compute. reflexivity. Qed.

(** ** Search with several filters, and with none *)





(** ** Get, update and delete of an id that is not stored *)

(** C3, as stated, fails: the id 2^63 is not in the table, and Get,
    PartialUpdate and Delete of it answer 500, not 404: the id cannot be
    bound as an SQLite integer (OverflowError). *)
Lemma absent_id_beyond_int64_is_500 :
  t1 !! beyond_int64 = None
  ∧ get_advertisement beyond_int64 t1 = (server_error OverflowError, t1)
  ∧ patch_advertisement strict_str strict_float beyond_int64
      (JObj [("price", JNum 50)]) t1
    = (server_error OverflowError, t1)
  ∧ delete_advertisement beyond_int64 t1 = (server_error OverflowError, t1).
Proof. split_and!; by vm_compute. Qed.

(** C3, amended: for every table and every id that is not in the
    table, Get, PartialUpdate (with any payload) and Delete leave the
    table as it was; they answer 404 when the id is an SQLite integer
    (64 bits), and 500 when it is not. *)
Theorem absent_id_not_found_unchanged (t : table) (ad_id : Z) :
  t !! ad_id = None →
  (Sqlite.in_int64 ad_id = true →
   get_advertisement ad_id t = (not_found, t)
   ∧ (∀ u, update_ad ad_id u t = (Raise (HTTPException 404), t))
   ∧ (∀ str_validator float_validator b,
        (patch_advertisement str_validator float_validator ad_id b t).2 = t
        ∧ (is_Some (validate_update str_validator float_validator b) →
           patch_advertisement str_validator float_validator ad_id b t = (not_found, t)))
   ∧ delete_advertisement ad_id t = (not_found, t))
  ∧ (Sqlite.in_int64 ad_id = false →
     get_advertisement ad_id t = (server_error OverflowError, t)
     ∧ (∀ str_validator float_validator b,
          (patch_advertisement str_validator float_validator ad_id b t).2 = t
          ∧ (is_Some (validate_update str_validator float_validator b) →
             patch_advertisement str_validator float_validator ad_id b t
             = (server_error OverflowError, t)))
     ∧ delete_advertisement ad_id t = (server_error OverflowError, t)).
Proof.
  intros Hk. split; intros Hin.
  - assert (∀ u, update_ad ad_id u t = (Raise (HTTPException 404), t)) as Hu.
    { intros u. by rewrite update_ad_eq, Hin, Hk. }
    split_and!.
    + unfold get_advertisement. by rewrite get_ad_eq, Hin, Hk.
    + done.
    + intros sv fv b. unfold patch_advertisement.
      destruct (validate_update sv fv b) as [u|]; rewrite ?Hu;
        [|by split; [|intros []]].
      done.
    + unfold delete_advertisement. by rewrite delete_ad_eq, Hin, Hk.
  - split_and!.
    + unfold get_advertisement. by rewrite get_ad_eq, Hin.
    + intros sv fv b. unfold patch_advertisement.
      destruct (validate_update sv fv b) as [u|]; rewrite ?update_ad_eq, ?Hin;
        [|by split; [|intros []]].
      done.
    + unfold delete_advertisement. by rewrite delete_ad_eq, Hin.
Qed.

Lemma absent_id_not_found_unchanged_witness :
  t1 !! 7 = None
  ∧ get_advertisement 7 t1 = (not_found, t1)
  ∧ patch_advertisement strict_str strict_float 7 (JObj [("price", JNum 50)]) t1
    = (not_found, t1)
  ∧ delete_advertisement 7 t1 = (not_found, t1).
Proof.
  assert (t1 !! 7 = None) as Hk by (vm_compute; reflexivity).
  split; [exact Hk|].
  destruct (absent_id_not_found_unchanged t1 7 Hk) as [H _].
  destruct (H eq_refl) as (Hg & _ & Hp & Hd).
  split; [exact Hg|]. split; [|exact Hd].
  apply Hp. vm_compute. eexists. reflexivity.
Defined.

(** ** Delete *)

(** C4: for every id in the table, Delete answers 204 without content
    and removes the record (and no other), and a Get of the id that
    follows answers 404. *)
Theorem delete_then_get_not_found (t : table) (ad_id : Z) :
  is_Some (t !! ad_id) →
  delete_advertisement ad_id t = (mk_response 204 NoContent, delete ad_id t)
  ∧ get_advertisement ad_id (delete ad_id t) = (not_found, delete ad_id t).
Proof.
  intros Hs. pose proof (table_lookup_in_int64 t ad_id Hs) as Hin.
  destruct Hs as [r Hk]. split.
  - unfold delete_advertisement. by rewrite delete_ad_eq, Hin, Hk.
  - unfold get_advertisement. by rewrite get_ad_eq, Hin, table_lookup_delete_eq.
Qed.

Lemma delete_then_get_not_found_witness :
  is_Some (t1 !! 1)
  ∧ (delete_advertisement 1 t1).1 = mk_response 204 NoContent
  ∧ (get_advertisement 1 (delete_advertisement 1 t1).2).1 = not_found.
Proof.
  assert (is_Some (t1 !! 1)) as Hk by (vm_compute; eexists; reflexivity).
  split; [exact Hk|].
  destruct (delete_then_get_not_found t1 1 Hk) as [Hd Hg].
  rewrite Hd. cbn [fst snd]. rewrite Hg. split; reflexivity.
Defined.

(** ** Create *)


Lemma respond_item_finite success ad :
  isfinite (AdvertisementRead.price ad) = true →
  respond success Item (Return ad) = mk_response success (Item ad).
Proof. intros H. unfold respond, encodable. by rewrite H. Qed.

Lemma respond_201_inv r ad :
  respond 201 Item r = mk_response 201 (Item ad) → r = Return ad.
Proof.
  unfold respond. destruct r as [a|e].
  - destruct (encodable _); intros [= ->]; done.
  - destruct e; intros [=].
Qed.




(** C8, as stated, fails: the payload with the price 1e999 is valid, and
    Create stores it, but neither Create nor the Get of its id yields a
    record: both answer 500; and for the valid payload with the price
    -0.0 the record that Create and Get yield has the price 0.0. *)
Lemma create_then_get_infinite_price :
  validate_create strict_str strict_float bike_infinite = Some bike_infinite_payload
  ∧ (post_advertisement strict_str strict_float 1000 bike_infinite ∅).1
    = server_error ValueError
  ∧ (get_advertisement 1
       (post_advertisement strict_str strict_float 1000 bike_infinite ∅).2).1
    = server_error ValueError
  ∧ (create_ad 1000 (AdvertisementCreate.mk "Bike" None neg_zero "A") ∅).1
    = Return (AdvertisementRead.mk "Bike" None 0 "A" 1 1000)
  ∧ 0%float ≠ neg_zero.
Proof.
  split_and!; try (by vm_compute).
  all: intros H; apply (f_equal classify) in H; vm_compute in H; discriminate H.
Qed.

(** C8, amended: for every valid Create payload with a finite price, on
    a table whose next id is an SQLite integer, Create answers 201 and
    the Get of the returned id answers with the same record, whose
    title, description and author are those supplied and whose price is
    the supplied number (-0.0 as 0.0). *)
Theorem create_then_get
    (str_validator : json → option string) (float_validator : json → option float)
    (utcnow : datetime) (b : json) (ad : AdvertisementCreate.t) (t : table) :
  validate_create str_validator float_validator b = Some ad →
  isfinite (AdvertisementCreate.price ad) = true →
  Sqlite.in_int64 (next_rowid t) = true →
  ∃ created t',
    post_advertisement str_validator float_validator utcnow b t
    = (mk_response 201 (Item created), t')
    ∧ get_advertisement (AdvertisementRead.id created) t'
      = (mk_response 200 (Item created), t')
    ∧ AdvertisementRead.title created = AdvertisementCreate.title ad
    ∧ AdvertisementRead.description created = AdvertisementCreate.description ad
    ∧ AdvertisementRead.price created = Sqlite.real (AdvertisementCreate.price ad)
    ∧ AdvertisementRead.author created = AdvertisementCreate.author ad.
Proof.
  intros Hv Hfin Hin. unfold post_advertisement. rewrite Hv, create_ad_eq.
  rewrite (isfinite_not_nan _ Hfin), Hin.
  assert (isfinite (AdvertisementRead.price
                      (record_of (next_rowid t) (new_row utcnow ad))) = true) as Hf.
  { by apply isfinite_real. }
  rewrite (respond_item_finite _ _ Hf).
  eexists _, _. split; [reflexivity|].
  unfold get_advertisement. cbn [record_of AdvertisementRead.id].
  rewrite (get_ad_stored _ _ (new_row utcnow ad)) by by apply table_lookup_insert_eq.
  rewrite (respond_item_finite _ _ Hf). by split_and!.
Qed.

Lemma create_then_get_witness :
  ∃ created t',
    post_advertisement strict_str strict_float 1000 bike ∅
    = (mk_response 201 (Item created), t')
    ∧ get_advertisement (AdvertisementRead.id created) t'
      = (mk_response 200 (Item created), t')
    ∧ AdvertisementRead.title created = "Bike".
Proof.
  assert (Sqlite.in_int64 (next_rowid ∅) = true) as Hin by (vm_compute; reflexivity).
  destruct (create_then_get strict_str strict_float 1000 bike
              (AdvertisementCreate.mk "Bike" None 100 "A") ∅ eq_refl eq_refl Hin)
    as (created & t' & Hp & Hg & Hti & _).
  exists created, t'. split; [exact Hp|]. split; [exact Hg|]. exact Hti.
Defined.

(** ** Partial update *)

(** C2, as stated, fails: the payload {"title": null} has [title]
    explicitly present, yet PartialUpdate does not assign it: the update
    is refused by the table (500) and the stored title stays "Bike". *)
Lemma update_null_title_not_assigned :
  validate_update strict_str strict_float (JObj [("title", JNull)]) = Some null_title
  ∧ "title" ∈ AdvertisementUpdate.fields_set null_title
  ∧ update_ad 1 null_title t1 = (Raise IntegrityError, t1)
  ∧ (patch_advertisement strict_str strict_float 1 (JObj [("title", JNull)]) t1).1
    = mk_response 500 (Detail IntegrityError)
  ∧ r_title <$> t1 !! 1 = Some "Bike".
Proof.
  split_and!; [reflexivity|by apply list_elem_of_singleton|by vm_compute..].
Qed.

(** C2, amended: for every stored id and every update payload that does
    not set [title], [price] or [author] to null, nor [price] to NaN,
    PartialUpdate answers with the record in which exactly the fields
    present in the payload have the payload's value (whatever that
    value, null for [description] included; a price -0.0 as 0.0) and
    every other field, [id] and [created_at] have their prior value, and
    stores that record in place of the old one. *)
Theorem update_assigns_present_fields
    (t : table) (ad_id : Z) (r : row) (u : AdvertisementUpdate.t) :
  t !! ad_id = Some r →
  nulls_required u = false →
  sets_nan_price u = false →
  ∃ ad,
    update_ad ad_id u t = (Return ad, <[ad_id := row_of ad]> t)
    ∧ AdvertisementRead.id ad = ad_id
    ∧ AdvertisementRead.created_at ad = r_created_at r
    ∧ (if sets u "title"
       then AdvertisementUpdate.title u = Some (AdvertisementRead.title ad)
       else AdvertisementRead.title ad = r_title r)
    ∧ (if sets u "description"
       then AdvertisementRead.description ad = AdvertisementUpdate.description u
       else AdvertisementRead.description ad = r_description r)
    ∧ (if sets u "price"
       then Sqlite.real <$> AdvertisementUpdate.price u
            = Some (AdvertisementRead.price ad)
       else AdvertisementRead.price ad = r_price r)
    ∧ (if sets u "author"
       then AdvertisementUpdate.author u = Some (AdvertisementRead.author ad)
       else AdvertisementRead.author ad = r_author r).
Proof.
  intros Hk Hu Hnan. rewrite (update_ad_stored _ _ _ _ Hk).
  unfold nulls_required in Hu. unfold sets_nan_price in Hnan. unfold updated.
  destruct u as [ti d pr au fs], r as [rt rd rp ra rc].
  cbn [AdvertisementUpdate.title AdvertisementUpdate.description
       AdvertisementUpdate.price AdvertisementUpdate.author
       r_title r_description r_price r_author r_created_at] in *.
  destruct (sets _ "title"), (sets _ "description"), (sets _ "price"),
    (sets _ "author"), ti, d, pr as [x|], au;
    try discriminate Hu;
    cbn [andb is_none orb] in Hnan; cbn [mbind option_bind];
    try rewrite Hnan; cbn [mbind option_bind];
    (eexists (record_of ad_id _); rewrite row_of_record_of;
     split; [reflexivity|]; by split_and!).
Qed.

(** PartialUpdate(1, {price: 50}) changes only the price. *)
Lemma update_assigns_present_fields_witness :
  t1 !! 1 = Some (mk_row "Bike" None 100 "A" 1000)
  ∧ update_ad 1 (AdvertisementUpdate.mk None None (Some 50%float) None ["price"]) t1
    = (Return (AdvertisementRead.mk "Bike" None 50 "A" 1 1000),
       <[1 := mk_row "Bike" None 50 "A" 1000]> t1).
Proof.
  assert (t1 !! 1 = Some (mk_row "Bike" None 100 "A" 1000)) as Hk
    by (vm_compute; reflexivity).
  split; [exact Hk|].
  destruct (update_assigns_present_fields t1 1 _
              (AdvertisementUpdate.mk None None (Some 50%float) None ["price"])
              Hk eq_refl eq_refl)
    as ([ti d pr au k ca] & Hu & Hid & Hca & Hti & Hd & Hpr & Hau).
  vm_compute in Hid, Hca, Hti, Hd, Hpr, Hau.
  injection Hpr as Hpr. subst. exact Hu.
Defined.

(** ** Immutability of [id] and [created_at] *)

(** C7: the id of a created record is the one the table generates and
    its [created_at] the creation time, whatever the body holds (an "id"
    member included); and a PartialUpdate, for any payload, keeps the ids
    in the table and the [created_at] of every one of them, and answers
    with the id it was called on and the [created_at] stored for it. *)
Theorem id_and_created_at_immutable :
  (∀ str_validator float_validator utcnow b (t : table) ad t',
     post_advertisement str_validator float_validator utcnow b t
     = (mk_response 201 (Item ad), t') →
     AdvertisementRead.id ad = next_rowid t
     ∧ AdvertisementRead.created_at ad = utcnow)
  ∧ (∀ ad_id u (t : table) k,
       r_created_at <$> (update_ad ad_id u t).2 !! k = r_created_at <$> t !! k)
  ∧ (∀ ad_id u (t : table) ad,
       (update_ad ad_id u t).1 = Return ad →
       AdvertisementRead.id ad = ad_id
       ∧ r_created_at <$> t !! ad_id = Some (AdvertisementRead.created_at ad)).
Proof.
  split_and!.
  - intros sv fv utcnow b t ad t'. unfold post_advertisement.
    destruct (validate_create sv fv b) as [c|]; [|done].
    intros H. assert ((create_ad utcnow c t).1 = Return ad) as Hc.
    { apply respond_201_inv. destruct (create_ad utcnow c t). by injection H as H _. }
    rewrite create_ad_eq in Hc.
    destruct (isnan _); [done|]. destruct (Sqlite.in_int64 _); [|done].
    by injection Hc as <-.
  - intros ad_id u t k. rewrite update_ad_eq.
    destruct (Sqlite.in_int64 ad_id) eqn:Hin; [|done].
    destruct (t !! ad_id) as [r|] eqn:Hk; [|done].
    destruct (updated u r) as [r'|] eqn:Hr; [|done]. cbn [snd].
    apply updated_created_at in Hr.
    destruct (decide (ad_id = k)) as [<-|Hne].
    + rewrite table_lookup_insert_eq, Hk by done. cbn. by rewrite Hr.
    + by rewrite table_lookup_insert_ne.
  - intros ad_id u t ad. rewrite update_ad_eq.
    destruct (Sqlite.in_int64 ad_id) eqn:Hin; [|done].
    destruct (t !! ad_id) as [r|] eqn:Hk; [|done].
    destruct (updated u r) as [r'|] eqn:Hr; [|done]. cbn [fst].
    apply updated_created_at in Hr. intros [= <-].
    cbn. by rewrite Hr.
Qed.

(** A body that carries "id" and "created_at" members gets the id and
    the time of the table and the clock. *)
Lemma id_and_created_at_immutable_witness :
  let b := JObj [("id", JNum 99); ("created_at", JNum 5); ("title", JStr "Car");
                 ("price", JNum 7); ("author", JStr "B")] in
  let ad := AdvertisementRead.mk "Car" None 7 "B" 2 2000 in
  post_advertisement strict_str strict_float 2000 b t1
  = (mk_response 201 (Item ad), <[2 := row_of ad]> t1)
  ∧ AdvertisementRead.id ad = next_rowid t1
  ∧ AdvertisementRead.created_at ad = 2000.
Proof.
  intros b ad.
  assert (post_advertisement strict_str strict_float 2000 b t1
          = (mk_response 201 (Item ad), <[2 := row_of ad]> t1)) as H
    by (vm_compute; reflexivity).
  split; [exact H|].
  destruct id_and_created_at_immutable as (Hc & _ & _).
  exact (Hc _ _ _ _ _ _ _ H).
Defined.

(** * Further properties of the handlers *)

(** ** Generated ids *)

(** X1: Create of a payload whose price is NaN is refused by the table
    (IntegrityError) and stores nothing; Create of any other payload, on
    a table whose next id is an SQLite integer, returns, leaves every
    record that was stored as it was, and generates an id larger than
    every id in the table. *)
Theorem create_keeps_other_records
    (utcnow : datetime) (ad : AdvertisementCreate.t) (t : table) :
  (isnan (AdvertisementCreate.price ad) = true →
   create_ad utcnow ad t = (Raise IntegrityError, t))
  ∧ (isnan (AdvertisementCreate.price ad) = false →
     Sqlite.in_int64 (next_rowid t) = true →
     ∃ created t',
       create_ad utcnow ad t = (Return created, t')
       ∧ (∀ k, k ≠ AdvertisementRead.id created → t' !! k = t !! k)
       ∧ (∀ k r, t !! k = Some r →
                 t' !! k = Some r ∧ k < AdvertisementRead.id created)).
Proof.
  rewrite create_ad_eq. split; [by intros ->|]. intros -> ->.
  eexists _, _. split; [reflexivity|].
  cbn [record_of AdvertisementRead.id]. split.
  - intros k Hk. by rewrite table_lookup_insert_ne.
  - intros k r Hk.
    assert (k < next_rowid t) by (apply next_rowid_above; by eexists).
    split; [|done]. rewrite table_lookup_insert_ne; [done|lia].
Qed.

Lemma create_keeps_other_records_witness :
  create_ad 2000 (AdvertisementCreate.mk "Car" None nan "B") t1
  = (Raise IntegrityError, t1)
  ∧ ∃ created t',
      create_ad 2000 (AdvertisementCreate.mk "Car" None 7 "B") t1 = (Return created, t')
      ∧ t' !! 1 = Some (mk_row "Bike" None 100 "A" 1000)
      ∧ 1 < AdvertisementRead.id created.
Proof.
  split.
  - apply (create_keeps_other_records 2000 (AdvertisementCreate.mk "Car" None nan "B") t1).
    reflexivity.
  - assert (Sqlite.in_int64 (next_rowid t1) = true) as Hin by (vm_compute; reflexivity).
    destruct (create_keeps_other_records
                2000 (AdvertisementCreate.mk "Car" None 7 "B") t1) as [_ H].
    destruct (H eq_refl Hin) as (created & t' & Hc & _ & Hk).
    exists created, t'. split; [exact Hc|]. exact (Hk 1 _ t1_lookup).
Defined.

(** X2: two Creates in a row, of payloads whose price is not NaN and
    while the ids are SQLite integers, get consecutive ids. *)
Theorem create_twice_consecutive_ids
    (now1 now2 : datetime) (ad1 ad2 : AdvertisementCreate.t) (t : table) :
  isnan (AdvertisementCreate.price ad1) = false →
  isnan (AdvertisementCreate.price ad2) = false →
  Sqlite.in_int64 (next_rowid t) = true →
  Sqlite.in_int64 (next_rowid t + 1) = true →
  ∃ first t' second t'',
    create_ad now1 ad1 t = (Return first, t')
    ∧ create_ad now2 ad2 t' = (Return second, t'')
    ∧ AdvertisementRead.id second = AdvertisementRead.id first + 1.
Proof.
  intros H1 H2 Hin Hin'. eexists _, _, _, _.
  rewrite create_ad_eq, H1, Hin. split; [reflexivity|].
  rewrite create_ad_eq, H2, (next_rowid_insert _ _ Hin), Hin'.
  split; reflexivity.
Qed.

Lemma create_twice_consecutive_ids_witness :
  ∃ first t' second t'',
    create_ad 1000 (AdvertisementCreate.mk "Bike" None 100 "A") ∅ = (Return first, t')
    ∧ create_ad 2000 (AdvertisementCreate.mk "Car" None 7 "B") t' = (Return second, t'')
    ∧ AdvertisementRead.id second = AdvertisementRead.id first + 1.
Proof.
  assert (Sqlite.in_int64 (next_rowid ∅) = true) as H1 by (vm_compute; reflexivity).
  assert (Sqlite.in_int64 (next_rowid ∅ + 1) = true) as H2 by (vm_compute; reflexivity).
  exact (create_twice_consecutive_ids
           1000 2000 (AdvertisementCreate.mk "Bike" None 100 "A")
           (AdvertisementCreate.mk "Car" None 7 "B") ∅ eq_refl eq_refl H1 H2).
Defined.

(** X3: Create (of payloads whose price is not NaN, while the next id is
    an SQLite integer) followed by Delete of the new id restores the
    table, so the next Create gets the same id again: ids of deleted
    records are reused. *)
Theorem create_delete_restores_table
    (now1 now2 : datetime) (ad1 ad2 : AdvertisementCreate.t) (t : table) :
  isnan (AdvertisementCreate.price ad1) = false →
  isnan (AdvertisementCreate.price ad2) = false →
  Sqlite.in_int64 (next_rowid t) = true →
  ∃ first t' second t'',
    create_ad now1 ad1 t = (Return first, t')
    ∧ delete_ad (AdvertisementRead.id first) t' = (Return (), t)
    ∧ create_ad now2 ad2 t = (Return second, t'')
    ∧ AdvertisementRead.id second = AdvertisementRead.id first.
Proof.
  intros H1 H2 Hin. eexists _, _, _, _.
  rewrite !create_ad_eq, H1, H2, Hin. split; [reflexivity|].
  cbn [record_of AdvertisementRead.id].
  rewrite delete_ad_eq, Hin, table_lookup_insert_eq by done.
  rewrite table_delete_insert_id by apply next_rowid_fresh.
  by split_and!.
Qed.

Lemma create_delete_restores_table_witness :
  ∃ first t' second t'',
    create_ad 2000 (AdvertisementCreate.mk "Car" None 7 "B") t1 = (Return first, t')
    ∧ delete_ad (AdvertisementRead.id first) t' = (Return (), t1)
    ∧ create_ad 3000 (AdvertisementCreate.mk "Bus" None 9 "C") t1 = (Return second, t'')
    ∧ AdvertisementRead.id second = AdvertisementRead.id first.
Proof.
  assert (Sqlite.in_int64 (next_rowid t1) = true) as Hin by (vm_compute; reflexivity).
  exact (create_delete_restores_table
           2000 3000 (AdvertisementCreate.mk "Car" None 7 "B")
           (AdvertisementCreate.mk "Bus" None 9 "C") t1 eq_refl eq_refl Hin).
Defined.

(** ** Partial update *)

(** X4: a PartialUpdate that succeeds is read back by Get: Get of the
    id returns the record the update answered with. *)
Theorem update_then_get
    (ad_id : Z) (u : AdvertisementUpdate.t) (t t' : table) (ad : AdvertisementRead.t) :
  update_ad ad_id u t = (Return ad, t') →
  get_ad ad_id t' = (Return ad, t').
Proof.
  rewrite update_ad_eq.
  destruct (Sqlite.in_int64 ad_id) eqn:Hin; [|done].
  destruct (t !! ad_id) as [r|]; [|done].
  destruct (updated u r) as [r'|]; [|done].
  intros [= <- <-]. apply get_ad_stored. by apply table_lookup_insert_eq.
Qed.

Lemma update_then_get_witness :
  let u := AdvertisementUpdate.mk (Some "Bicycle") None None None ["title"] in
  let ad := AdvertisementRead.mk "Bicycle" None 100 "A" 1 1000 in
  update_ad 1 u t1 = (Return ad, <[1 := row_of ad]> t1)
  ∧ get_ad 1 (<[1 := row_of ad]> t1) = (Return ad, <[1 := row_of ad]> t1).
Proof.
  intros u ad.
  assert (update_ad 1 u t1 = (Return ad, <[1 := row_of ad]> t1)) as H
    by (vm_compute; reflexivity).
  split; [exact H|]. exact (update_then_get 1 u t1 _ ad H).
Defined.

(** X5: PartialUpdate, whether it succeeds or fails and whatever the
    payload, keeps the set of stored ids and every record other than the
    one it is called on. *)
Theorem update_keeps_other_records
    (ad_id : Z) (u : AdvertisementUpdate.t) (t : table) :
  dom (update_ad ad_id u t).2 = dom t
  ∧ ∀ k, k ≠ ad_id → (update_ad ad_id u t).2 !! k = t !! k.
Proof.
  rewrite update_ad_eq.
  destruct (Sqlite.in_int64 ad_id) eqn:Hin; [|done].
  destruct (t !! ad_id) as [r|] eqn:Hk; [|done].
  destruct (updated u r) as [r'|]; [|done]. cbn [snd]. split.
  - apply table_dom_insert_lookup. by eexists.
  - intros k Hne. by rewrite table_lookup_insert_ne.
Qed.

Lemma update_keeps_other_records_witness :
  let u := AdvertisementUpdate.mk (Some "Bicycle") None None None ["title"] in
  let t2 : table := <[2 := mk_row "Car" None 7 "B" 2000]> t1 in
  (update_ad 1 u t2).2 !! 2 = Some (mk_row "Car" None 7 "B" 2000).
Proof.
  intros u t2.
  destruct (update_keeps_other_records 1 u t2) as [_ H].
  rewrite (H 2) by discriminate. vm_compute. reflexivity.
Defined.

(** X6: a payload that sets [title], [price] or [author] to null is
    refused for every stored id: the update raises IntegrityError
    (status 500) and the table is left as it was. *)
Theorem update_null_required_rejected
    (t : table) (ad_id : Z) (r : row) (u : AdvertisementUpdate.t) :
  t !! ad_id = Some r →
  nulls_required u = true →
  update_ad ad_id u t = (Raise IntegrityError, t)
  ∧ respond 200 Item (update_ad ad_id u t).1 = mk_response 500 (Detail IntegrityError).
Proof.
  intros Hk Hu. rewrite (update_ad_stored _ _ _ _ Hk).
  assert (updated u r = None) as ->; [|done].
  unfold nulls_required in Hu. unfold updated.
  destruct u as [ti d pr au fs], r as [rt rd rp ra rc].
  cbn [AdvertisementUpdate.title AdvertisementUpdate.description
       AdvertisementUpdate.price AdvertisementUpdate.author
       r_title r_description r_price r_author r_created_at] in *.
  destruct (sets _ "title"), (sets _ "description"), (sets _ "price"),
    (sets _ "author"), ti, d, pr as [x|], au;
    try discriminate Hu; cbn [mbind option_bind];
    try reflexivity; by destruct (isnan x).
Qed.

Lemma update_null_required_rejected_witness :
  let u := AdvertisementUpdate.mk (Some "Bicycle") None None None ["title"; "price"] in
  t1 !! 1 = Some (mk_row "Bike" None 100 "A" 1000)
  ∧ update_ad 1 u t1 = (Raise IntegrityError, t1).
Proof.
  intros u.
  assert (t1 !! 1 = Some (mk_row "Bike" None 100 "A" 1000)) as Hk
    by (vm_compute; reflexivity).
  split; [exact Hk|].
  destruct (update_null_required_rejected t1 1 _ u Hk eq_refl) as [H _]. exact H.
Defined.

(** X7: PartialUpdate is idempotent: repeating it with the same payload
    gives the same answer and the same table as doing it once. *)
Theorem update_idempotent (ad_id : Z) (u : AdvertisementUpdate.t) (t : table) :
  update_ad ad_id u (update_ad ad_id u t).2 = update_ad ad_id u t.
Proof.
  rewrite (update_ad_eq ad_id t u).
  destruct (Sqlite.in_int64 ad_id) eqn:Hin.
  - destruct (t !! ad_id) as [r|] eqn:Hk.
    + destruct (updated u r) as [r'|] eqn:Hr; cbn [snd].
      * rewrite (update_ad_stored _ _ _ r') by by apply table_lookup_insert_eq.
        by rewrite (updated_again _ _ _ Hr), table_insert_insert_eq.
      * by rewrite (update_ad_stored _ _ _ _ Hk), Hr.
    + cbn [snd]. by rewrite update_ad_eq, Hin, Hk.
  - cbn [snd]. by rewrite update_ad_eq, Hin.
Qed.

(** X8: a PATCH body that carries none of the four fields (an empty
    object, or members such as "id" and "created_at") validates and
    changes nothing; when the stored price is finite (as every price
    the service stored and could answer with) it answers 200 with the
    stored record. *)
Theorem patch_without_fields_changes_nothing
    (str_validator : json → option string) (float_validator : json → option float)
    (members : list (string * json)) (t : table) (ad_id : Z) (r : row) :
  t !! ad_id = Some r →
  isfinite (r_price r) = true →
  member "title" members = None →
  member "description" members = None →
  member "price" members = None →
  member "author" members = None →
  patch_advertisement str_validator float_validator ad_id (JObj members) t
  = (mk_response 200 (Item (record_of ad_id r)), t).
Proof.
  intros Hk Hfin Hti Hd Hpr Hau.
  unfold patch_advertisement, validate_update, optional.
  rewrite Hti, Hd, Hpr, Hau. cbn [mbind option_bind fst snd set_name app].
  rewrite (update_ad_stored _ _ _ _ Hk). unfold updated, sets.
  cbn [AdvertisementUpdate.fields_set].
  rewrite !bool_decide_eq_false_2 by (by intros ?%elem_of_nil).
  cbn [mbind option_bind].
  replace (mk_row _ _ _ _ _) with r by by destruct r.
  rewrite (table_insert_id _ _ _ Hk).
  by rewrite respond_item_finite.
Qed.

Lemma patch_without_fields_changes_nothing_witness :
  patch_advertisement strict_str strict_float 1
    (JObj [("id", JNum 5); ("created_at", JNum 0)]) t1
  = (mk_response 200 (Item (AdvertisementRead.mk "Bike" None 100 "A" 1 1000)), t1).
Proof.
  apply (patch_without_fields_changes_nothing strict_str strict_float
           [("id", JNum 5); ("created_at", JNum 0)] t1 1
           (mk_row "Bike" None 100 "A" 1000));
    vm_compute; reflexivity.
Defined.

(** ** Delete *)

(** X9: Delete of a stored id removes that record only: Get of any
    other id answers as before, and Search, with any filters, returns
    what it returned before except the deleted record. *)
Theorem delete_keeps_other_records (t : table) (ad_id : Z) :
  is_Some (t !! ad_id) →
  ∃ t',
    delete_ad ad_id t = (Return (), t')
    ∧ (∀ k, k ≠ ad_id → (get_ad k t').1 = (get_ad k t).1)
    ∧ ∀ title author price_min price_max ad,
        returned title author price_min price_max t' ad
        ↔ returned title author price_min price_max t ad
          ∧ AdvertisementRead.id ad ≠ ad_id.
Proof.
  intros Hs. pose proof (table_lookup_in_int64 t ad_id Hs) as Hin.
  destruct Hs as [r Hk]. exists (delete ad_id t).
  rewrite delete_ad_eq, Hin, Hk. split; [done|]. split.
  - intros k Hne. rewrite !get_ad_eq, table_lookup_delete_ne by (by intros ->).
    destruct (Sqlite.in_int64 k); [|done]. by destruct (t !! k).
  - intros ti au lo hi ad. rewrite !returned_iff. unfold stored.
    rewrite table_lookup_delete_Some. split.
    + intros [[Hne Hs] Hsel]. split; [by split|]. by intros Heq; apply Hne.
    + intros [[Hs Hsel] Hne]. split; [|done]. split; [|done].
      by intros Heq; apply Hne.
Qed.

Lemma delete_keeps_other_records_witness :
  let t2 : table := <[2 := mk_row "Car" None 7 "B" 2000]> t1 in
  is_Some (t2 !! 1)
  ∧ (get_ad 2 (delete_ad 1 t2).2).1
    = Return (AdvertisementRead.mk "Car" None 7 "B" 2 2000).
Proof.
  intros t2.
  assert (is_Some (t2 !! 1)) as Hk by (vm_compute; eexists; reflexivity).
  split; [exact Hk|].
  destruct (delete_keeps_other_records t2 1 Hk) as (t' & Hd & Hg & _).
  rewrite Hd. cbn [snd]. rewrite (Hg 2) by discriminate.
  vm_compute. reflexivity.
Defined.

(** ** Search and Get *)

(** X10: Search and Get agree: Get of the id of a record that a Search
    returned, with any filters, returns that record; and a record that
    Get returns is among those of the Search without filters. *)
Theorem search_and_get_agree (t : table) :
  (∀ title author price_min price_max ad,
     returned title author price_min price_max t ad →
     get_ad (AdvertisementRead.id ad) t = (Return ad, t))
  ∧ (∀ ad_id ad,
       get_ad ad_id t = (Return ad, t) → returned None None None None t ad).
Proof.
  split.
  - intros ti au lo hi ad [Hs _]%returned_iff.
    rewrite (get_ad_stored _ _ _ Hs). by destruct ad.
  - intros k ad. rewrite get_ad_eq.
    destruct (Sqlite.in_int64 k); [|done].
    destruct (t !! k) as [r|] eqn:Hk; [|done]. intros [= <-].
    apply returned_iff. split; [|apply selects_none].
    apply stored_iff. by exists k, r.
Qed.

Lemma search_and_get_agree_witness :
  get_ad 1 t1 = (Return (AdvertisementRead.mk "Bike" None 100 "A" 1 1000), t1)
  ∧ returned None None None None t1 (AdvertisementRead.mk "Bike" None 100 "A" 1 1000).
Proof.
  assert (get_ad 1 t1 = (Return (AdvertisementRead.mk "Bike" None 100 "A" 1 1000), t1))
    as Hg by (vm_compute; reflexivity).
  split; [exact Hg|].
  destruct (search_and_get_agree t1) as [_ H]. exact (H 1 _ Hg).
Defined.

(** X11: a filter only narrows a Search: a record returned with some
    filters is returned as well when any one of them is left out. *)
Theorem search_filter_narrows
    (t : table) (title author : option string) (price_min price_max : option float)
    (ad : AdvertisementRead.t) :
  returned title author price_min price_max t ad →
  returned None author price_min price_max t ad
  ∧ returned title None price_min price_max t ad
  ∧ returned title author None price_max t ad
  ∧ returned title author price_min None t ad.
Proof.
  rewrite !returned_iff. unfold selects. intros (Hs & HT & HA & HL & HH).
  split_and!; try done; intros ? ?; simplify_eq.
Qed.

Lemma search_filter_narrows_witness :
  returned (Some "ik") (Some "A") (Some 50%float) None t1
           (AdvertisementRead.mk "Bike" None 100 "A" 1 1000)
  ∧ returned (Some "ik") None (Some 50%float) None t1
             (AdvertisementRead.mk "Bike" None 100 "A" 1 1000).
Proof.
  assert (returned (Some "ik") (Some "A") (Some 50%float) None t1
                   (AdvertisementRead.mk "Bike" None 100 "A" 1 1000)) as H.
  { eexists. split; [vm_compute; reflexivity|]. apply list_elem_of_singleton.
    reflexivity. }
  split; [exact H|].
  destruct (search_filter_narrows t1 _ _ _ _ _ H) as (_ & H2 & _). exact H2.
Defined.

(** X12: the author filter is an exact comparison: Search(author=a)
    with a non-empty [a] returns exactly the stored records whose author
    is [a], character for character. *)
Theorem search_author_exact (t : table) (a : string) (ad : AdvertisementRead.t) :
  a ≠ "" →
  returned None (Some a) None None t ad
  ↔ stored t ad ∧ AdvertisementRead.author ad = a.
Proof.
  intros Ha. rewrite returned_iff. unfold selects. cbn [row_of r_author]. split.
  - intros (? & _ & HA & _). split; [done|]. by apply HA.
  - intros [? HA]. split; [done|]. split_and!; intros ? ?; simplify_eq; done.
Qed.

Lemma search_author_exact_witness :
  "a" ≠ ""
  ∧ stored t1 (AdvertisementRead.mk "Bike" None 100 "A" 1 1000)
  ∧ ¬ returned None (Some "a") None None t1
        (AdvertisementRead.mk "Bike" None 100 "A" 1 1000).
Proof.
  assert ("a" ≠ "") as Ha by discriminate.
  split; [exact Ha|]. split; [vm_compute; reflexivity|].
  intros H. apply (search_author_exact t1 "a" _ Ha) in H as [_ H].
  discriminate H.
Defined.

(** X13: a price bound is applied whenever it is given, whatever its
    value (0 included): Search(price_min=lo) returns exactly the stored
    records with [lo <= price], Search(price_max=hi) those with
    [price <= hi]. *)
Theorem search_one_price_bound (t : table) (bound : float) (ad : AdvertisementRead.t) :
  (returned None None (Some bound) None t ad
   ↔ stored t ad ∧ PrimFloat.leb bound (AdvertisementRead.price ad) = true)
  ∧ (returned None None None (Some bound) t ad
     ↔ stored t ad ∧ PrimFloat.leb (AdvertisementRead.price ad) bound = true).
Proof.
  rewrite !returned_iff. unfold selects. cbn [row_of r_price]. split; split.
  - intros (? & _ & _ & HL & _). split; [done|]. by apply HL.
  - intros [? HL]. split; [done|]. split_and!; intros ? ?; simplify_eq; done.
  - intros (? & _ & _ & _ & HH). split; [done|]. by apply HH.
  - intros [? HH]. split; [done|]. split_and!; intros ? ?; simplify_eq; done.
Qed.

(** ** More on the title filter *)




Lemma fetch_ext (stmt1 stmt2 : statement) l :
  (∀ r, stmt1 r = stmt2 r) → fetch stmt1 l = fetch stmt2 l.
Proof.
  intros H. induction l as [|kr l IH]; [done|]. cbn [fetch]. by rewrite H, IH.
Qed.

Lemma truthy_lower x : truthy (Sqlite.lower x) = truthy x.
Proof. by destruct x. Qed.

(** X14: Search does not see the case of the ASCII letters of the title
    query: with the query lowered it gives the same answer, whatever the
    other filters. *)
Theorem search_title_query_case
    (t : table) (x : string) (author : option string) (price_min price_max : option float) :
  search_ads (Some (Sqlite.lower x)) author price_min price_max t
  = search_ads (Some x) author price_min price_max t.
Proof.
  unfold search_ads, mbind, Session_bind, session_exec_all.
  assert (fetch (search_stmt (Some (Sqlite.lower x)) author price_min price_max) (scan t)
          = fetch (search_stmt (Some x) author price_min price_max) (scan t)) as ->;
    [|done].
  apply fetch_ext. intros r. unfold search_stmt, where_, select.
  rewrite truthy_lower.
  destruct (truthy x), author as [a|]; [destruct (truthy a)| |destruct (truthy a)|];
    destruct price_min, price_max; cbv beta iota zeta;
    by rewrite ?contains_lower.
Qed.

(** X15: a stored record is found by a Search for its own title and
    author exactly when LIKE accepts the pattern made of its title
    (titles up to 49998 bytes); a record with a longer title is stored
    and is not found that way: the search fails. *)
Theorem search_finds_own_title_author (t : table) (ad : AdvertisementRead.t) :
  stored t ad →
  returned (Some (AdvertisementRead.title ad)) (Some (AdvertisementRead.author ad))
           None None t ad
  ↔ within_limit (AdvertisementRead.title ad) = true.
Proof.
  intros Hs. rewrite returned_iff. split.
  - intros [_ [HT _]]. cbn [row_of r_title] in HT.
    destruct (within_limit (AdvertisementRead.title ad)) eqn:Hfit; [done|].
    destruct (decide (AdvertisementRead.title ad = "")) as [He|Hne].
    + by rewrite He in Hfit.
    + specialize (HT _ eq_refl Hne). by rewrite (contains_None _ _ Hfit) in HT.
  - intros Hfit. split; [done|]. unfold selects.
    cbn [row_of r_title r_author]. split_and!; intros ? ?; simplify_eq; [|done].
    intros _. by apply contains_self.
Qed.

Lemma search_finds_own_title_author_witness :
  returned (Some "100%_off") (Some "A") None None
           (<[3 := mk_row "100%_off" None 1 "A" 0]> t1)
           (AdvertisementRead.mk "100%_off" None 1 "A" 3 0)
  ∧ ¬ returned (Some long_query) (Some "A") None None
        (<[3 := mk_row long_query None 1 "A" 0]> t1)
        (AdvertisementRead.mk long_query None 1 "A" 3 0).
Proof.
  split.
  - apply (search_finds_own_title_author
             (<[3 := mk_row "100%_off" None 1 "A" 0]> t1)
             (AdvertisementRead.mk "100%_off" None 1 "A" 3 0)).
    + vm_compute. reflexivity.
    + vm_compute. reflexivity.
  - intros H.
    apply (search_finds_own_title_author
             (<[3 := mk_row long_query None 1 "A" 0]> t1)
             (AdvertisementRead.mk long_query None 1 "A" 3 0)) in H.
    + vm_compute in H. discriminate H.
    + apply (table_lookup_insert_eq t1 3). reflexivity.
Defined.



(** ** The routes *)

(** X17: the status codes of the routes, for an id and filters of the
    types the routes declare, and what a failure leaves: POST answers
    201, 422 or 500, GET of an id 200, 404 or 500, PATCH 200, 404, 422
    or 500, DELETE 204, 404 or 500, the search 200 or 500; GET and the
    search never change the table, nor does a POST that answers 422, a
    PATCH that answers 404 or 422, or a DELETE that does not answer
    204. *)
Theorem routes_status_codes
    (str_validator : json → option string) (float_validator : json → option float)
    (utcnow : datetime) (b : json) (ad_id : Z)
    (title author : option string) (price_min price_max : option float) (t : table) :
  let post := post_advertisement str_validator float_validator utcnow b t in
  let get := get_advertisement ad_id t in
  let patch := patch_advertisement str_validator float_validator ad_id b t in
  let del := delete_advertisement ad_id t in
  let search := get_advertisements title author price_min price_max t in
  (status_code post.1 = 201 ∨ status_code post.1 = 422 ∧ post.2 = t
   ∨ status_code post.1 = 500)
  ∧ ((status_code get.1 = 200 ∨ status_code get.1 = 404 ∨ status_code get.1 = 500)
     ∧ get.2 = t)
  ∧ (status_code patch.1 = 200
     ∨ (status_code patch.1 = 404 ∨ status_code patch.1 = 422) ∧ patch.2 = t
     ∨ status_code patch.1 = 500)
  ∧ (status_code del.1 = 204
     ∨ (status_code del.1 = 404 ∨ status_code del.1 = 500) ∧ del.2 = t)
  ∧ ((status_code search.1 = 200 ∨ status_code search.1 = 500) ∧ search.2 = t).
Proof.
  cbv zeta. split; [|split; [|split; [|split]]].
  - unfold post_advertisement.
    destruct (validate_create str_validator float_validator b) as [c|];
      [|right; left; by cbn].
    rewrite create_ad_eq. destruct (isnan _); [right; right; by cbn|].
    destruct (Sqlite.in_int64 _); [|right; right; by cbn].
    unfold respond. destruct (encodable _); cbn; auto.
  - unfold get_advertisement. rewrite get_ad_eq.
    destruct (Sqlite.in_int64 _); [|cbn; auto].
    destruct (t !! ad_id); unfold respond; [destruct (encodable _)|]; cbn; auto.
  - unfold patch_advertisement.
    destruct (validate_update str_validator float_validator b) as [u|];
      [|right; left; cbn; auto].
    rewrite update_ad_eq. destruct (Sqlite.in_int64 _); [|right; right; by cbn].
    destruct (t !! ad_id) as [r|]; [|right; left; cbn; auto].
    destruct (updated u r); [|right; right; by cbn].
    unfold respond. destruct (encodable _); cbn; auto.
  - unfold delete_advertisement. rewrite delete_ad_eq.
    destruct (Sqlite.in_int64 _); [|cbn; auto].
    destruct (t !! ad_id); cbn; auto.
  - unfold get_advertisements.
    destruct (search_ads_cases title author price_min price_max t)
      as [[ads ->]| ->]; [|cbn; auto].
    unfold respond. destruct (encodable _); cbn; auto.
Qed.

Lemma optional_set {T} (validator : json → option T) name members x f :
  optional validator name members = Some (x, f) →
  f = true ↔ is_Some (member name members).
Proof.
  unfold optional. destruct (member name members) as [v|].
  - destruct v; try (intros [= <- <-]; split; [by eexists|done]);
      destruct (validator _); intros [= <- <-]; (split; [by eexists|done]).
  - intros [= <- <-]. split; [done|]. by intros [? ?].
Qed.

Lemma elem_of_set_name name n f : name ∈ set_name n f ↔ f = true ∧ name = n.
Proof.
  destruct f; cbn.
  - rewrite list_elem_of_singleton. split; [by intros ->|by intros [_ ->]].
  - rewrite elem_of_nil. split; [done|by intros [? _]].
Qed.

(** X18: presence in the body is what sets a field of a PATCH payload:
    after validation, a name is in the payload's set of fields exactly
    when it is one of [title], [description], [price], [author] and the
    body has a member of that name, whatever the member's value (null
    included). *)
Theorem patch_body_presence_sets_field
    (str_validator : json → option string) (float_validator : json → option float)
    (members : list (string * json)) (u : AdvertisementUpdate.t) (name : string) :
  validate_update str_validator float_validator (JObj members) = Some u →
  sets u name = true
  ↔ name ∈ ["title"; "description"; "price"; "author"]
    ∧ is_Some (member name members).
Proof.
  unfold validate_update.
  destruct (optional str_validator "title" members) as [[v1 f1]|] eqn:E1; [|done].
  destruct (optional str_validator "description" members) as [[v2 f2]|] eqn:E2; [|done].
  destruct (optional float_validator "price" members) as [[v3 f3]|] eqn:E3; [|done].
  destruct (optional str_validator "author" members) as [[v4 f4]|] eqn:E4; [|done].
  cbn [mbind option_bind fst snd]. intros [= <-].
  apply optional_set in E1, E2, E3, E4.
  unfold sets. cbn [AdvertisementUpdate.fields_set].
  rewrite bool_decide_eq_true, !elem_of_app, !elem_of_set_name,
    !elem_of_cons, elem_of_nil.
  split.
  - intros [[Hf ->]|[[Hf ->]|[[Hf ->]|[Hf ->]]]].
    + split; [by left|by apply E1].
    + split; [by right; left|by apply E2].
    + split; [by right; right; left|by apply E3].
    + split; [by right; right; right; left|by apply E4].
  - intros [[->|[->|[->|[->|[]]]]] Hm].
    + left. split; [by apply E1|done].
    + right; left. split; [by apply E2|done].
    + right; right; left. split; [by apply E3|done].
    + right; right; right. split; [by apply E4|done].
Qed.

Lemma patch_body_presence_sets_field_witness :
  let members := [("description", JNull); ("id", JNum 3)] in
  let u := AdvertisementUpdate.mk None None None None ["description"] in
  validate_update strict_str strict_float (JObj members) = Some u
  ∧ sets u "description" = true
  ∧ sets u "id" = false.
Proof.
  intros members u.
  assert (validate_update strict_str strict_float (JObj members) = Some u) as H
    by reflexivity.
  split; [exact H|]. split.
  - apply (patch_body_presence_sets_field _ _ _ _ "description" H).
    split; [apply elem_of_cons; right; apply elem_of_cons; by left|].
    eexists. reflexivity.
  - reflexivity.
Defined.
